(** * Hermitian matrices, unitary matrices and tensor products

    A shallow embedding of the code cells of the notebook
    [TallerEsp.Vect-Hermitian-Unitary-Tensor-Circuits.ipynb].

    The cells are straight-line numpy programs.  The embedding keeps their
    shape: the numpy calls the cells make ([np.array], [np.kron],
    [np.dot], [np.allclose], [np.eye], [.conj()], [.T], [np.sqrt],
    [np.exp]) have a definition of the same name in the module [np], and
    every cell is a module whose definitions are the cell's assignments,
    in the cell's order.  [np.linalg.eig] is a LAPACK routine; it enters
    through the contract of its result, [is_eigenvalue].

    Arithmetic.  A [complex128] entry is a pair of binary64 numbers; here
    it is a pair of real numbers and every operation is the exact one, so
    rounding is not part of the model.  The integer-valued cells (the
    tensor products of exercises 3 and 4) only meet integers far below
    2^53, which binary64 represents and combines without rounding; the
    cells that go through [np.sqrt], [np.exp] and [np.linalg.eig] are
    stated for the exact values those calls approximate. *)

From Stdlib Require Import Reals Lra Lia List Arith ZArith Bool.
Import ListNotations.

Local Open Scope R_scope.

(** ** Complex scalars *)

Record C : Type := mkC { re : R; im : R }.

Declare Scope C_scope.
Delimit Scope C_scope with C.
Bind Scope C_scope with C.

(** A Python [int] and a Python [float] stored in a complex array. *)
Definition ofInt (z : Z) : C := mkC (IZR z) 0.
Definition ofFloat (x : R) : C := mkC x 0.

Definition C0 : C := mkC 0 0.
Definition C1 : C := mkC 1 0.

Definition Cadd (a b : C) : C := mkC (re a + re b) (im a + im b).
Definition Csub (a b : C) : C := mkC (re a - re b) (im a - im b).
Definition Cneg (a : C) : C := mkC (- re a) (- im a).
Definition Cmul (a b : C) : C :=
  mkC (re a * re b - im a * im b) (re a * im b + im a * re b).
Definition Cdiv (a b : C) : C :=
  let d := re b * re b + im b * im b in
  mkC ((re a * re b + im a * im b) / d) ((im a * re b - re a * im b) / d).
Definition Cconj (a : C) : C := mkC (re a) (- im a).
(** [abs] of a complex number. *)
Definition Cabs (a : C) : R := sqrt (re a * re a + im a * im a).
(** [np.exp] on a complex argument. *)
Definition Cexp (a : C) : C := mkC (exp (re a) * cos (im a)) (exp (re a) * sin (im a)).

Infix "+" := Cadd : C_scope.
Infix "-" := Csub : C_scope.
Infix "*" := Cmul : C_scope.
Infix "/" := Cdiv : C_scope.
Notation "- x" := (Cneg x) : C_scope.

(** Comparison of two reals as a boolean, the [<=] of numpy's [isclose]. *)
Definition Rleb (x y : R) : bool := if Rle_dec x y then true else false.

(** ** Arrays

    A one-dimensional array is a list of scalars.  A two-dimensional array
    carries its shape next to its rows, as an [ndarray] does: an array of
    shape (2, 0) and one of shape (0, 2) are different arrays. *)

Abbreviation vector := (list C).

Record matrix : Type := mkM { nrows : nat; ncols : nat; rows : list (list C) }.

(** The rows agree with the shape. *)
Definition wf (M : matrix) : Prop :=
  length (rows M) = nrows M /\ Forall (fun r => length r = ncols M) (rows M).

(** [M[i, k]]; out of range only under an ill-formed [M]. *)
Definition get (M : matrix) (i k : nat) : C := nth k (nth i (rows M) []) C0.

(** Fallible numpy calls: [None] is the raised [ValueError]. *)
Definition bind {A B} (x : option A) (f : A -> option B) : option B :=
  match x with Some a => f a | None => None end.
Notation "x <- e ;; k" := (bind e (fun x => k))
  (at level 61, e at next level, right associativity).

Module np.

(** [np.array] on a nested list literal with rows of one length. *)
Definition array (l : list (list C)) : matrix :=
  mkM (length l) (length (hd [] l)) l.

(** [np.sqrt] on a float and the constant [np.pi]. *)
Definition sqrt (x : R) : R := R_sqrt.sqrt x.
Definition pi : R := PI.
Definition exp (z : C) : C := Cexp z.

(** [M.conj()]: the conjugate of every entry, same shape. *)
Definition conj (M : matrix) : matrix :=
  mkM (nrows M) (ncols M) (map (map Cconj) (rows M)).

(** [M.T]: shape (m, n) from shape (n, m), entry [k, i] is [M[i, k]]. *)
Definition T (M : matrix) : matrix :=
  mkM (ncols M) (nrows M)
      (map (fun k => map (fun i => get M i k) (seq 0 (nrows M))) (seq 0 (ncols M))).

(** [np.eye(n)]. *)
Definition eye (n : nat) : matrix :=
  mkM n n (map (fun i => map (fun k => if Nat.eqb i k then C1 else C0) (seq 0 n)) (seq 0 n)).

(** [np.kron] on two one-dimensional arrays: for each entry of [v], in
    order, the whole of [w] scaled by it. *)
Definition kron_v (v w : vector) : vector :=
  flat_map (fun a => map (fun b => (a * b)%C) w) v.

(** [np.kron] on two two-dimensional arrays: block [i, k] of the result
    is [A[i, k] * B]. *)
Definition kron (A B : matrix) : matrix :=
  mkM (nrows A * nrows B) (ncols A * ncols B)
      (flat_map (fun ra => map (fun rb => kron_v ra rb) (rows B)) (rows A)).

(** Sum of products along the contracted axis. *)
Definition sum (l : list C) : C := fold_left Cadd l C0.

(** [np.dot] on two two-dimensional arrays. *)
Definition dot (A B : matrix) : option matrix :=
  if Nat.eqb (ncols A) (nrows B) then
    Some (mkM (nrows A) (ncols B)
           (map (fun i =>
              map (fun k =>
                sum (map (fun l => (get A i l * get B l k)%C) (seq 0 (ncols A))))
                (seq 0 (ncols B)))
              (seq 0 (nrows A))))
  else None.

(** [np.dot] on a two-dimensional and a one-dimensional array. *)
Definition dot_mv (A : matrix) (v : vector) : option vector :=
  if Nat.eqb (ncols A) (length v) then
    Some (map (fun i =>
            sum (map (fun l => (get A i l * nth l v C0)%C) (seq 0 (ncols A))))
            (seq 0 (nrows A)))
  else None.

(** Scalar times array, array times scalar, array divided by scalar. *)
Definition smul (c : C) (M : matrix) : matrix :=
  mkM (nrows M) (ncols M) (map (map (fun x => (c * x)%C)) (rows M)).
Definition muls (M : matrix) (c : C) : matrix :=
  mkM (nrows M) (ncols M) (map (map (fun x => (x * c)%C)) (rows M)).
Definition divs (M : matrix) (c : C) : matrix :=
  mkM (nrows M) (ncols M) (map (map (fun x => (x / c)%C)) (rows M)).

(** [np.isclose(a, b)] on finite scalars: [|a - b| <= atol + rtol * |b|]. *)
Definition isclose (rtol atol : R) (a b : C) : bool :=
  Rleb (Cabs (a - b)) (atol + rtol * Cabs b).

(** Broadcasting of one axis: equal lengths, or one of them is 1. *)
Definition bdim (a b : nat) : option nat :=
  if Nat.eqb a b then Some a
  else if Nat.eqb a 1 then Some b
  else if Nat.eqb b 1 then Some a
  else None.
Definition bidx (a i : nat) : nat := if Nat.eqb a 1 then 0%nat else i.

(** [np.allclose(A, B, rtol, atol)]: the two arrays are broadcast
    against each other ([ValueError] when the shapes do not allow it) and
    every pair of entries has to be close. *)
Definition allclose_tol (rtol atol : R) (A B : matrix) : option bool :=
  n <- bdim (nrows A) (nrows B) ;;
  m <- bdim (ncols A) (ncols B) ;;
  Some (forallb (fun i =>
          forallb (fun k =>
            isclose rtol atol
              (get A (bidx (nrows A) i) (bidx (ncols A) k))
              (get B (bidx (nrows B) i) (bidx (ncols B) k)))
            (seq 0 m))
          (seq 0 n)).

(** numpy's defaults: [rtol=1e-05], [atol=1e-08]. *)
Definition rtol_default : R := 1 / 100000.
Definition atol_default : R := 1 / 100000000.
Definition allclose : matrix -> matrix -> option bool :=
  allclose_tol rtol_default atol_default.

End np.

(** Python's imaginary literal [xj]. *)
Definition jj (x : R) : C := mkC 0 x.

(** ** The expressions the cells are built from

    [M.conj().T], the Hermitian test [np.allclose(M, M.conj().T)] and the
    unitarity test [np.allclose(np.dot(M, M.conj().T), np.eye(2))], each
    as a function of the array the cell applies it to. *)

Definition conjugate_transpose (M : matrix) : matrix := np.T (np.conj M).

Definition is_hermitian_tol (rtol atol : R) (M : matrix) : option bool :=
  np.allclose_tol rtol atol M (conjugate_transpose M).

Definition is_hermitian (M : matrix) : option bool :=
  np.allclose M (conjugate_transpose M).

Definition is_unitary (M : matrix) : option bool :=
  P <- np.dot M (conjugate_transpose M) ;;
  np.allclose P (np.eye 2).

(** ** [np.linalg.eig]

    The notebook calls LAPACK through numpy and has no eigenvalue code of
    its own.  What the call promises: the array [w] it returns lists the
    eigenvalues of [A], and for each of them the matching column [v] of
    the second result is a nonzero vector with [A @ v = w * v]. *)

Definition eigenpair (A : matrix) (lam : C) (v : vector) : Prop :=
  length v = nrows A /\
  (exists x, In x v /\ x <> C0) /\
  np.dot_mv A v = Some (map (fun x => (lam * x)%C) v).

Definition is_eigenvalue (A : matrix) (lam : C) : Prop :=
  exists v, eigenpair A lam v.

(** The closed form of the specification for a 2x2 matrix,
    [(trace +- sqrt(trace^2 - 4 det)) / 2], with the principal complex
    square root. *)
Definition trace2 (A : matrix) : C := (get A 0 0 + get A 1 1)%C.
Definition det2 (A : matrix) : C := (get A 0 0 * get A 1 1 - get A 0 1 * get A 1 0)%C.
Definition Csqrt (z : C) : C :=
  mkC (sqrt ((Cabs z + re z) / 2))
      ((if Rle_dec 0 (im z) then 1 else -1) * sqrt ((Cabs z - re z) / 2)).
Definition eigenvalues2_closed_form (A : matrix) : C * C :=
  let t := trace2 A in
  let s := Csqrt (t * t - ofInt 4 * det2 A)%C in
  ((t + s) / ofInt 2, (t - s) / ofInt 2)%C.

(** Euclidean norm of a state vector. *)
Definition norm (v : vector) : R :=
  sqrt (fold_right (fun x acc => re x * re x + im x * im x + acc) 0 v).

(** ** The cells *)

(** First example cell: a Hermitian matrix and its test. *)
Module Example1.
Definition hermitian_matrix : matrix :=
  np.array [[ofInt 2 + jj 0; ofInt 2 - jj 1]; [ofInt 2 + jj 1; ofInt 3 + jj 0]]%C.
Definition is_hermitian : option bool :=
  np.allclose hermitian_matrix (np.T (np.conj hermitian_matrix)).
End Example1.

(** Exercise 1: the Hermitian test, then the matrix handed to
    [np.linalg.eig]. *)
Module Exercise1.
Definition hermitian_matrix : matrix :=
  np.array [[ofInt 3; ofInt 2 + jj 1]; [ofInt 2 - jj 1; ofInt 1]]%C.
Definition is_hermitian : option bool :=
  np.allclose hermitian_matrix (np.T (np.conj hermitian_matrix)).
Definition A : matrix :=
  np.array [[ofInt 3; ofInt 2 + jj 1]; [ofInt 2 - jj 1; ofInt 1 + jj 0]]%C.
End Exercise1.

(** Exercise 2: the test runs on [unitary_matrix2], the cell's value pairs
    its result with [unitary_matrix]. *)
Module Exercise2.
Definition unitary_matrix : matrix :=
  np.array [[ofInt 1; jj 1]; [jj 1; ofInt 1]].
Definition unitary_matrix2 : matrix :=
  np.divs (np.muls unitary_matrix (ofInt 1)) (ofFloat (np.sqrt 2)).
Definition is_unitary : option bool :=
  P <- np.dot unitary_matrix2 (np.T (np.conj unitary_matrix2)) ;;
  np.allclose P (np.eye 2).
Definition cell_value : option bool * matrix := (is_unitary, unitary_matrix).
End Exercise2.

(** Exercise 3: [1+1] is an addition of two Python integers. *)
Module Exercise3.
Definition v1 : vector := [ofInt (1 + 1); ofInt 2 - jj 1]%C.
Definition v2 : vector := [ofInt 1 - jj 2; ofInt 3 + jj 0]%C.
Definition tensor_product_v : vector := np.kron_v v1 v2.
(** The vectors of the exercise text, [v = (1+i, 2-i)] and [w = (1-2i, 3)]. *)
Definition v_text : vector := [ofInt 1 + jj 1; ofInt 2 - jj 1]%C.
Definition w_text : vector := [ofInt 1 - jj 2; ofInt 3]%C.
(** The answer the cell shows: [array([2.-4.j, 6.+0.j, 0.-5.j, 6.-3.j])]. *)
Definition shown_answer : vector := [mkC 2 (-4); mkC 6 0; mkC 0 (-5); mkC 6 (-3)].
(** The vector [3-1i, 3+3i, 0-5i, 6-3i]. *)
Definition text_answer : vector := [mkC 3 (-1); mkC 3 3; mkC 0 (-5); mkC 6 (-3)].
End Exercise3.

(** Exercise 4. *)
Module Exercise4.
Definition M1 : matrix := np.array [[ofInt 0; ofInt 1]; [ofInt 1; ofInt 0]].
Definition M2 : matrix := np.array [[jj 1; ofInt 0]; [ofInt 0; - jj 1]]%C.
Definition tensor_product : matrix := np.kron M1 M2.
End Exercise4.

(** Exercise 5: the Mach-Zehnder interferometer. *)
Module Exercise5.
Definition beam_splitter : matrix :=
  np.smul (ofFloat (1 / np.sqrt 2)) (np.array [[ofInt 1; jj 1]; [jj 1; ofInt 1]]).
Definition phase_shifter (phi : R) : matrix :=
  np.array [[np.exp (jj 1 * ofFloat phi); ofInt 0];
            [ofInt 0; np.exp (jj 1 * ofFloat phi)]]%C.
Definition mach_zehnder_interferometer (phi : R) : option matrix :=
  let BS := beam_splitter in
  let PS := phase_shifter phi in
  X <- np.dot PS BS ;;
  Y <- np.dot BS X ;;
  np.dot PS Y.
Definition input_state : vector := [ofInt 1; ofInt 0].
Definition phi : R := np.pi / 4.
Definition output_state : option vector :=
  MZ <- mach_zehnder_interferometer phi ;;
  np.dot_mv MZ input_state.
End Exercise5.

(** Exercise 6: the circuit of Deutsch's algorithm on the state [|1>|0>],
    with [H (x) I], then [U_f], then [H (x) H]. *)
Module Exercise6.
Definition v1 : vector := [ofInt 0; ofInt 1].
Definition v2 : vector := [ofInt 1; ofInt 0].
Definition tensor_product_v : vector := np.kron_v v1 v2.
Definition M1 : matrix := np.array [[ofInt 1; ofInt 1]; [ofInt 1; ofInt (-1)]].
Definition M2 : matrix := np.array [[ofInt 1; ofInt 0]; [ofInt 0; ofInt 1]].
Definition M3 : matrix := np.smul (ofFloat (1 / np.sqrt 2)) M1.
Definition tensor_product_m : matrix := np.kron M3 M2.
Definition product_tensor : option vector :=
  np.dot_mv tensor_product_m tensor_product_v.
Definition U : matrix :=
  np.array [[ofInt 0; ofInt 1; ofInt 0; ofInt 0];
            [ofInt 1; ofInt 0; ofInt 0; ofInt 0];
            [ofInt 0; ofInt 0; ofInt 1; ofInt 0];
            [ofInt 0; ofInt 0; ofInt 0; ofInt 1]].
Definition k : option vector :=
  pt <- product_tensor ;; np.dot_mv U pt.
Definition M4 : matrix := np.array [[ofInt 1; ofInt 1]; [ofInt 1; ofInt (-1)]].
Definition M5 : matrix := np.array [[ofInt 1; ofInt 1]; [ofInt 1; ofInt (-1)]].
Definition M6 : matrix := np.smul (ofFloat (1 / np.sqrt 2)) M4.
Definition M7 : matrix := np.smul (ofFloat (1 / np.sqrt 2)) M5.
Definition tensor_product_l : matrix := np.kron M6 M7.
Definition final : option vector :=
  kk <- k ;; np.dot_mv tensor_product_l kk.
End Exercise6.

(** The sum of the squared moduli of the entries: the square of [norm]. *)
Definition sumsq (v : vector) : R :=
  fold_right (fun x acc => re x * re x + im x * im x + acc) 0 v.

(** [i * exp(2 i phi)], written out in [cos phi] and [sin phi]: the
    off-diagonal entry of the interferometer matrix. *)
Definition mz_entry (phi : R) : C :=
  mkC (- (2 * cos phi * sin phi)) (cos phi * cos phi - sin phi * sin phi).

(** * Properties *)

(** ** Scalars *)

Lemma C_eq (a b : C) : re a = re b -> im a = im b -> a = b.
Proof. destruct a, b; simpl; intros -> ->; reflexivity. Qed.

(** Closes an equation between scalars whose two components are ring
    identities over the reals. *)
Ltac ceq := apply C_eq; simpl; try lra; try ring.

Lemma Cconj_involutive (a : C) : Cconj (Cconj a) = a.
Proof. ceq. Qed.

Lemma Cconj_C0 : Cconj C0 = C0.
Proof. ceq. Qed.

Lemma Cabs_conj (a : C) : Cabs (Cconj a) = Cabs a.
Proof. unfold Cabs; simpl; f_equal; ring. Qed.

Lemma Cconj_sub (a b : C) : Cconj (a - b) = (Cconj a - Cconj b)%C.
Proof. ceq. Qed.

Lemma Cabs_nonneg (a : C) : 0 <= Cabs a.
Proof. apply sqrt_pos. Qed.

Lemma Cabs_C0 : Cabs C0 = 0.
Proof. unfold Cabs; simpl. replace (0 * 0 + 0 * 0) with 0 by ring. apply sqrt_0. Qed.

Lemma Cabs_real (x : R) : 0 <= x -> Cabs (mkC x 0) = x.
Proof.
  intros Hx; unfold Cabs; simpl.
  replace (x * x + 0 * 0) with (x * x) by ring.
  apply sqrt_square; exact Hx.
Qed.

(** ** Lists cut in blocks of one length *)

Section Blocks.
Context {X Y : Type} (f : X -> list Y) (n : nat).

Lemma length_flat_map_uniform (l : list X) :
  (forall x, In x l -> length (f x) = n) ->
  length (flat_map f l) = (length l * n)%nat.
Proof.
  induction l as [|x l IH]; intros Hf; simpl; [reflexivity|].
  rewrite length_app, (Hf x), IH.
  - reflexivity.
  - intros y Hy; apply Hf; right; exact Hy.
  - left; reflexivity.
Qed.

Lemma nth_error_flat_map_uniform (l : list X) :
  (forall x, In x l -> length (f x) = n) ->
  forall i k a, nth_error l i = Some a -> (k < n)%nat ->
  nth_error (flat_map f l) (i * n + k) = nth_error (f a) k.
Proof.
  induction l as [|x l IH]; intros Hf i k a Hi Hk.
  - destruct i; discriminate.
  - destruct i as [|i]; simpl in *.
    + injection Hi as ->.
      apply nth_error_app1. rewrite Hf by auto. exact Hk.
    + rewrite nth_error_app2 by (rewrite Hf by auto; lia).
      rewrite Hf by auto.
      replace (n + i * n + k - n)%nat with (i * n + k)%nat by lia.
      apply IH; auto.
Qed.
End Blocks.

(** ** Tensor product of vectors *)

Lemma kron_v_length (v w : vector) :
  length (np.kron_v v w) = (length v * length w)%nat.
Proof.
  unfold np.kron_v. apply length_flat_map_uniform.
  intros; apply length_map.
Qed.

Lemma kron_v_nth_error (v w : vector) (i k : nat) (a b : C) :
  nth_error v i = Some a -> nth_error w k = Some b ->
  nth_error (np.kron_v v w) (i * length w + k) = Some (a * b)%C.
Proof.
  intros Hi Hk. unfold np.kron_v.
  rewrite (nth_error_flat_map_uniform _ (length w) v) with (a := a); auto.
  - rewrite nth_error_map, Hk. reflexivity.
  - intros; apply length_map.
  - apply nth_error_Some. congruence.
Qed.

(** C1. The tensor product of a vector [v] of length [m] and a vector [w]
    of length [n] has length [m * n], and for [i < m], [k < n] its entry
    at [i * n + k] is [v[i] * w[k]]. *)
Theorem tensor_product_vector_entries (v w : vector) (m n : nat) :
  length v = m -> length w = n ->
  length (np.kron_v v w) = (m * n)%nat /\
  forall i k, (i < m)%nat -> (k < n)%nat ->
    exists a b, nth_error v i = Some a /\ nth_error w k = Some b /\
                nth_error (np.kron_v v w) (i * n + k) = Some (a * b)%C.
Proof.
  intros Hm Hn; subst m n. split; [apply kron_v_length|].
  intros i k Hi Hk.
  destruct (nth_error v i) as [a|] eqn:Ea;
    [|apply nth_error_None in Ea; lia].
  destruct (nth_error w k) as [b|] eqn:Eb;
    [|apply nth_error_None in Eb; lia].
  exists a, b. repeat split. apply kron_v_nth_error; assumption.
Qed.

Lemma tensor_product_vector_entries_witness :
  length (np.kron_v Exercise3.v1 Exercise3.v2) = (2 * 2)%nat /\
  forall i k, (i < 2)%nat -> (k < 2)%nat ->
    exists a b, nth_error Exercise3.v1 i = Some a /\
                nth_error Exercise3.v2 k = Some b /\
                nth_error (np.kron_v Exercise3.v1 Exercise3.v2) (i * 2 + k)
                  = Some (a * b)%C.
Proof.
  apply (tensor_product_vector_entries Exercise3.v1 Exercise3.v2 2 2);
    reflexivity.
Defined.

(** Equations between explicit lists, element by element with [tac]. *)
Ltac list_eq tac :=
  lazymatch goal with
  | |- cons _ _ = cons _ _ => apply f_equal2; [tac|list_eq tac]
  | |- nil = nil => reflexivity
  end.

(** Closes an equation between two explicit lists of scalars. *)
Ltac veq := simpl; list_eq ceq.

(** Reduces an equation between two explicit arrays to its entries. *)
Ltac rows_eq tac :=
  lazymatch goal with
  | |- cons _ _ = cons _ _ => apply f_equal2; [list_eq tac|rows_eq tac]
  | |- nil = nil => reflexivity
  end.

(** ** Exercise 3 *)

Lemma exercise3_v1_value : Exercise3.v1 = [mkC 2 0; mkC 2 (-1)].
Proof. unfold Exercise3.v1, ofInt, jj. veq. Qed.

Lemma exercise3_v2_value : Exercise3.v2 = [mkC 1 (-2); mkC 3 0].
Proof. unfold Exercise3.v2, ofInt, jj. veq. Qed.

Lemma kron_v_text : np.kron_v Exercise3.v_text Exercise3.w_text = Exercise3.text_answer.
Proof.
  unfold Exercise3.v_text, Exercise3.w_text, Exercise3.text_answer, np.kron_v, ofInt, jj.
  veq.
Qed.

Lemma kron_v_cell : Exercise3.tensor_product_v = Exercise3.shown_answer.
Proof.
  unfold Exercise3.tensor_product_v, Exercise3.shown_answer.
  rewrite exercise3_v1_value, exercise3_v2_value. unfold np.kron_v. veq.
Qed.

Lemma shown_answer_not_text_answer : Exercise3.shown_answer <> Exercise3.text_answer.
Proof.
  intros H. apply (f_equal (fun l => re (hd C0 l))) in H. simpl in H. lra.
Qed.

(** C2. The tensor product of [1+1i, 2-1i] and [1-2i, 3] is
    [3-1i, 3+3i, 0-5i, 6-3i].  The Exercise 3 cell does not compute that
    vector: its first vector starts with [1+1], the integer 2, and the
    cell's value is [2-4i, 6, 0-5i, 6-3i]. *)
Theorem exercise3_text_product_and_cell :
  np.kron_v Exercise3.v_text Exercise3.w_text = Exercise3.text_answer /\
  Exercise3.tensor_product_v = [mkC 2 (-4); mkC 6 0; mkC 0 (-5); mkC 6 (-3)] /\
  Exercise3.tensor_product_v <> Exercise3.text_answer.
Proof.
  split; [exact kron_v_text|].
  split; [exact kron_v_cell|].
  rewrite kron_v_cell. exact shown_answer_not_text_answer.
Qed.

(** C3, as stated, fails: the answer shown under the Exercise 3 cell is
    the tensor product of the vectors the cell defines. *)
Lemma shown_answer_is_cell_product :
  ~ (Exercise3.shown_answer <> np.kron_v Exercise3.v1 Exercise3.v2).
Proof.
  intros H. apply H. symmetry. exact kron_v_cell.
Qed.

(** C3, amended.  The cell's vectors are [v1 = [2, 2-1i]] and
    [v2 = [1-2i, 3]]; the answer shown, [2-4i, 6, 0-5i, 6-3i], equals their
    tensor product, and differs from the tensor product of the vectors of
    the exercise text, [1+1i, 2-1i] and [1-2i, 3]. *)
Theorem shown_answer_matches_cell_not_text :
  Exercise3.v1 = [mkC 2 0; mkC 2 (-1)] /\
  Exercise3.v2 = [mkC 1 (-2); mkC 3 0] /\
  Exercise3.shown_answer = np.kron_v Exercise3.v1 Exercise3.v2 /\
  Exercise3.shown_answer <> np.kron_v Exercise3.v_text Exercise3.w_text.
Proof.
  split; [exact exercise3_v1_value|].
  split; [exact exercise3_v2_value|].
  split; [symmetry; exact kron_v_cell|].
  rewrite kron_v_text. exact shown_answer_not_text_answer.
Qed.

(** ** Tensor product of matrices *)

Lemma wf_nth_error_row (M : matrix) (i : nat) :
  wf M -> (i < nrows M)%nat ->
  exists r, nth_error (rows M) i = Some r /\ length r = ncols M.
Proof.
  intros [Hr Hc] Hi.
  destruct (nth_error (rows M) i) as [r|] eqn:E.
  - exists r; split; [reflexivity|].
    rewrite Forall_forall in Hc. apply Hc. eapply nth_error_In; eauto.
  - apply nth_error_None in E. lia.
Qed.

Lemma get_nth_error (M : matrix) (i k : nat) (r : list C) (x : C) :
  nth_error (rows M) i = Some r -> nth_error r k = Some x -> get M i k = x.
Proof.
  intros Hr Hx. unfold get.
  rewrite (nth_error_nth _ _ _ Hr). apply nth_error_nth. exact Hx.
Qed.

(** The rule [C[i*r+a, k*s+b] = A[i,k] * B[a,b]] of [np.kron] for an
    array [A] and an array [B] of shape (r, s). *)
Lemma kron_entry (A B : matrix) (i k a b : nat) :
  wf A -> wf B ->
  (i < nrows A)%nat -> (k < ncols A)%nat ->
  (a < nrows B)%nat -> (b < ncols B)%nat ->
  get (np.kron A B) (i * nrows B + a) (k * ncols B + b)
    = (get A i k * get B a b)%C.
Proof.
  intros HA HB Hi Hk Ha Hb.
  destruct (wf_nth_error_row A i HA Hi) as (ra & Era & Lra).
  destruct (wf_nth_error_row B a HB Ha) as (rb & Erb & Lrb).
  destruct (nth_error ra k) as [x|] eqn:Ex;
    [|apply nth_error_None in Ex; lia].
  destruct (nth_error rb b) as [y|] eqn:Ey;
    [|apply nth_error_None in Ey; lia].
  rewrite (get_nth_error A i k ra x Era Ex), (get_nth_error B a b rb y Erb Ey).
  apply get_nth_error with (r := np.kron_v ra rb).
  - simpl. destruct HB as [HBr _]. rewrite <- HBr.
    rewrite (nth_error_flat_map_uniform _ (length (rows B)) (rows A))
      with (a := ra); auto.
    + cbv beta. apply (map_nth_error (fun rb0 => np.kron_v ra rb0)). exact Erb.
    + intros; apply length_map.
    + lia.
  - rewrite <- Lrb. apply kron_v_nth_error; assumption.
Qed.

Lemma kron_wf (A B : matrix) : wf A -> wf B -> wf (np.kron A B).
Proof.
  intros [HAr HAc] [HBr HBc]. split; simpl.
  - rewrite (length_flat_map_uniform _ (nrows B));
      [rewrite HAr; reflexivity|].
    intros; rewrite length_map; exact HBr.
  - apply Forall_forall. intros r Hr.
    apply in_flat_map in Hr. destruct Hr as (ra & Hra & Hr).
    apply in_map_iff in Hr. destruct Hr as (rb & <- & Hrb).
    rewrite Forall_forall in HAc, HBc.
    rewrite kron_v_length, (HAc ra Hra), (HBc rb Hrb). reflexivity.
Qed.

(** ** Exercise 4 *)

Ltac meq := unfold np.array; simpl; f_equal; rows_eq ceq.

Lemma exercise4_M1_wf : wf Exercise4.M1.
Proof. split; simpl; [reflexivity|repeat constructor]. Qed.

Lemma exercise4_M2_wf : wf Exercise4.M2.
Proof. split; simpl; [reflexivity|repeat constructor]. Qed.

(** C6. The tensor product of [[0,1],[1,0]] and [[i,0],[0,-i]] follows
    the rule [C[i*2+a, k*2+b] = M1[i,k] * M2[a,b]] and is the 4x4 matrix
    with [i] at (0,2) and (2,0), [-i] at (1,3) and (3,1), and zero at
    every other position. *)
Theorem exercise4_tensor_product :
  (forall i k a b, (i < 2)%nat -> (k < 2)%nat -> (a < 2)%nat -> (b < 2)%nat ->
     get Exercise4.tensor_product (i * 2 + a) (k * 2 + b)
       = (get Exercise4.M1 i k * get Exercise4.M2 a b)%C) /\
  Exercise4.tensor_product =
    np.array [[C0; C0; mkC 0 1; C0];
              [C0; C0; C0; mkC 0 (-1)];
              [mkC 0 1; C0; C0; C0];
              [C0; mkC 0 (-1); C0; C0]] /\
  (forall r c, (r < 4)%nat -> (c < 4)%nat ->
     get Exercise4.tensor_product r c =
       if ((r =? 0) && (c =? 2) || (r =? 2) && (c =? 0))%nat%bool then mkC 0 1
       else if ((r =? 1) && (c =? 3) || (r =? 3) && (c =? 1))%nat%bool then mkC 0 (-1)
       else C0).
Proof.
  assert (E : Exercise4.tensor_product =
    np.array [[C0; C0; mkC 0 1; C0];
              [C0; C0; C0; mkC 0 (-1)];
              [mkC 0 1; C0; C0; C0];
              [C0; mkC 0 (-1); C0; C0]]).
  { unfold Exercise4.tensor_product, Exercise4.M1, Exercise4.M2, np.kron,
      np.kron_v, C0, ofInt, jj.
    meq. }
  split; [|split].
  - intros i k a b Hi Hk Ha Hb.
    apply (kron_entry Exercise4.M1 Exercise4.M2 i k a b);
      auto using exercise4_M1_wf, exercise4_M2_wf.
  - exact E.
  - intros r c Hr Hc. rewrite E.
    destruct r as [|[|[|[|r]]]]; [| | | |lia];
      destruct c as [|[|[|[|c]]]]; try lia; reflexivity.
Qed.

(** ** Conjugate transpose *)

Lemma nth_error_map_seq {X : Type} (F : nat -> X) (n i : nat) :
  (i < n)%nat -> nth_error (map F (seq 0 n)) i = Some (F i).
Proof.
  intros Hi. apply map_nth_error.
  rewrite (nth_error_nth' _ 0%nat) by (rewrite length_seq; exact Hi).
  rewrite seq_nth by exact Hi. reflexivity.
Qed.

Lemma tabulate_nth {X : Type} (d : X) (l : list X) :
  map (fun i => nth i l d) (seq 0 (length l)) = l.
Proof.
  induction l as [|x l IH]; simpl; [reflexivity|].
  f_equal. rewrite <- seq_shift, map_map. exact IH.
Qed.

Lemma get_conj (M : matrix) (i k : nat) :
  get (np.conj M) i k = Cconj (get M i k).
Proof.
  unfold get; simpl.
  change (@nil C) with (map Cconj []) at 1.
  rewrite map_nth.
  transitivity (nth k (map Cconj (nth i (rows M) [])) (Cconj C0)).
  - rewrite Cconj_C0. reflexivity.
  - apply map_nth.
Qed.

Lemma get_T (M : matrix) (i k : nat) :
  (i < nrows M)%nat -> (k < ncols M)%nat -> get (np.T M) k i = get M i k.
Proof.
  intros Hi Hk.
  apply get_nth_error with (r := map (fun i => get M i k) (seq 0 (nrows M))).
  - simpl. apply (nth_error_map_seq (fun k => map (fun i => get M i k) (seq 0 (nrows M)))).
    exact Hk.
  - apply (nth_error_map_seq (fun i => get M i k)). exact Hi.
Qed.

Lemma get_conjugate_transpose (M : matrix) (i k : nat) :
  (i < nrows M)%nat -> (k < ncols M)%nat ->
  get (conjugate_transpose M) k i = Cconj (get M i k).
Proof.
  intros Hi Hk. unfold conjugate_transpose.
  rewrite get_T by (simpl; assumption). apply get_conj.
Qed.

(** A well-formed array is the table of its entries. *)
Lemma rows_tabulate (M : matrix) :
  wf M ->
  map (fun i => map (fun k => get M i k) (seq 0 (ncols M))) (seq 0 (nrows M))
    = rows M.
Proof.
  intros [Hr Hc]. rewrite <- Hr.
  transitivity (map (fun i => nth i (rows M) []) (seq 0 (length (rows M))));
    [|apply tabulate_nth].
  apply map_ext_in. intros i Hi. apply in_seq in Hi.
  assert (Hl : length (nth i (rows M) []) = ncols M).
  { rewrite Forall_forall in Hc. apply Hc. apply nth_In. lia. }
  unfold get. rewrite <- Hl. apply tabulate_nth.
Qed.

(** C7. For every matrix [M], of any shape, the conjugate transpose of
    the conjugate transpose of [M] is [M]. *)
Theorem conjugate_transpose_involutive (M : matrix) :
  wf M -> conjugate_transpose (conjugate_transpose M) = M.
Proof.
  intros HM. destruct M as [n m rs] eqn:EM. rewrite <- EM.
  assert (Hn : nrows M = n) by (rewrite EM; reflexivity).
  assert (Hm : ncols M = m) by (rewrite EM; reflexivity).
  assert (Hrs : rows M = rs) by (rewrite EM; reflexivity).
  rewrite <- EM in HM.
  transitivity (mkM (nrows M) (ncols M) (rows M));
    [|rewrite Hn, Hm, Hrs; symmetry; exact EM].
  unfold conjugate_transpose at 1. unfold np.T at 1.
  change (nrows (np.conj (conjugate_transpose M))) with (ncols M).
  change (ncols (np.conj (conjugate_transpose M))) with (nrows M).
  f_equal. rewrite <- (rows_tabulate M HM).
  apply map_ext_in. intros i Hi. apply in_seq in Hi.
  apply map_ext_in. intros k Hk. apply in_seq in Hk.
  rewrite get_conj, get_conjugate_transpose by lia.
  apply Cconj_involutive.
Qed.

Lemma conjugate_transpose_involutive_witness :
  wf (np.array [[ofInt 1; jj 1; ofInt 2]; [ofInt 0; ofInt 3; jj (-1)]]) /\
  conjugate_transpose
    (conjugate_transpose
       (np.array [[ofInt 1; jj 1; ofInt 2]; [ofInt 0; ofInt 3; jj (-1)]]))
    = np.array [[ofInt 1; jj 1; ofInt 2]; [ofInt 0; ofInt 3; jj (-1)]].
Proof.
  assert (H : wf (np.array [[ofInt 1; jj 1; ofInt 2]; [ofInt 0; ofInt 3; jj (-1)]])).
  { split; simpl; [reflexivity|repeat constructor]. }
  split; [exact H|].
  apply (conjugate_transpose_involutive _ H).
Defined.

(** ** The Hermitian test *)

Lemma forallb_ext_in {X : Type} (f g : X -> bool) (l : list X) :
  (forall x, In x l -> f x = g x) -> forallb f l = forallb g l.
Proof.
  induction l as [|x l IH]; intros H; simpl; [reflexivity|].
  rewrite (H x) by (left; reflexivity).
  rewrite IH by (intros y Hy; apply H; right; exact Hy).
  reflexivity.
Qed.

Lemma bdim_same (n : nat) : np.bdim n n = Some n.
Proof. unfold np.bdim. rewrite Nat.eqb_refl. reflexivity. Qed.

Lemma bidx_lt (n i : nat) : (i < n)%nat -> np.bidx n i = i.
Proof.
  unfold np.bidx. intros Hi. destruct (Nat.eqb_spec n 1); [lia|reflexivity].
Qed.

(** [np.allclose] on two arrays of the same shape (n, m) compares entry
    with entry. *)
Lemma allclose_tol_same_shape (rtol atol : R) (A B : matrix) (n m : nat) :
  nrows A = n -> nrows B = n -> ncols A = m -> ncols B = m ->
  np.allclose_tol rtol atol A B =
    Some (forallb (fun i =>
            forallb (fun k => np.isclose rtol atol (get A i k) (get B i k))
                    (seq 0 m)) (seq 0 n)).
Proof.
  intros HA HB HA' HB'. unfold np.allclose_tol.
  rewrite HA, HB, HA', HB', !bdim_same. simpl. f_equal.
  apply forallb_ext_in. intros i Hi. apply in_seq in Hi.
  apply forallb_ext_in. intros k Hk. apply in_seq in Hk.
  rewrite !bidx_lt by lia. reflexivity.
Qed.

Lemma isclose_conj (rtol atol : R) (a b : C) :
  np.isclose rtol atol (Cconj a) (Cconj b) = np.isclose rtol atol a b.
Proof.
  unfold np.isclose. rewrite <- Cconj_sub, !Cabs_conj. reflexivity.
Qed.

Lemma forallb_swap (P : nat -> nat -> bool) (l : list nat) :
  forallb (fun i => forallb (fun k => P k i) l) l
    = forallb (fun i => forallb (fun k => P i k) l) l.
Proof.
  apply Bool.eq_iff_eq_true. rewrite !forallb_forall. split; intros H i Hi;
    apply forallb_forall; intros k Hk;
    specialize (H k Hk); rewrite forallb_forall in H; exact (H i Hi).
Qed.

(** The Hermitian test on a square array, entry by entry. *)
Lemma is_hermitian_tol_square (rtol atol : R) (M : matrix) :
  nrows M = ncols M ->
  is_hermitian_tol rtol atol M =
    Some (forallb (fun i =>
            forallb (fun k =>
              np.isclose rtol atol (get M i k) (Cconj (get M k i)))
              (seq 0 (nrows M))) (seq 0 (nrows M))).
Proof.
  intros Hsq. unfold is_hermitian_tol.
  rewrite (allclose_tol_same_shape rtol atol M (conjugate_transpose M)
             (nrows M) (nrows M)); auto.
  f_equal.
  apply forallb_ext_in. intros i Hi. apply in_seq in Hi.
  apply forallb_ext_in. intros k Hk. apply in_seq in Hk.
  rewrite get_conjugate_transpose by lia. reflexivity.
Qed.

(** C8. For every square matrix [M] and every tolerance the Hermitian test
    returns a result on [M] and on the conjugate transpose of [M], and the
    two results are the same. *)
Theorem is_hermitian_conjugate_transpose (rtol atol : R) (M : matrix) :
  nrows M = ncols M ->
  exists b : bool,
    is_hermitian_tol rtol atol M = Some b /\
    is_hermitian_tol rtol atol (conjugate_transpose M) = Some b.
Proof.
  intros Hsq. eexists. split; [apply is_hermitian_tol_square; exact Hsq|].
  rewrite is_hermitian_tol_square by (simpl; symmetry; exact Hsq).
  change (nrows (conjugate_transpose M)) with (ncols M). rewrite <- Hsq.
  f_equal.
  rewrite <- (forallb_swap
    (fun i k => np.isclose rtol atol (get M i k) (Cconj (get M k i)))).
  apply forallb_ext_in. intros i Hi. apply in_seq in Hi.
  apply forallb_ext_in. intros k Hk. apply in_seq in Hk.
  rewrite !get_conjugate_transpose by lia.
  rewrite isclose_conj. reflexivity.
Qed.

Lemma is_hermitian_conjugate_transpose_witness :
  nrows Example1.hermitian_matrix = ncols Example1.hermitian_matrix /\
  exists b : bool,
    is_hermitian_tol np.rtol_default np.atol_default Example1.hermitian_matrix
      = Some b /\
    is_hermitian_tol np.rtol_default np.atol_default
      (conjugate_transpose Example1.hermitian_matrix) = Some b.
Proof.
  split; [reflexivity|].
  apply (is_hermitian_conjugate_transpose np.rtol_default np.atol_default
           Example1.hermitian_matrix).
  reflexivity.
Defined.

(** ** Exercise 2 *)

Lemma sqrt2_sqr : np.sqrt 2 * np.sqrt 2 = 2.
Proof. unfold np.sqrt. apply sqrt_sqrt. lra. Qed.

Lemma sqrt2_pos : 0 < np.sqrt 2.
Proof. unfold np.sqrt. apply sqrt_lt_R0. lra. Qed.

Lemma inv_sqrt2_sqr : / np.sqrt 2 * / np.sqrt 2 = / 2.
Proof.
  rewrite <- Rinv_mult. rewrite sqrt2_sqr. reflexivity.
Qed.

Lemma unitary_matrix2_value :
  Exercise2.unitary_matrix2 =
    np.array [[mkC (/ np.sqrt 2) 0; mkC 0 (/ np.sqrt 2)];
              [mkC 0 (/ np.sqrt 2); mkC (/ np.sqrt 2) 0]].
Proof.
  pose proof sqrt2_pos as Hp.
  unfold Exercise2.unitary_matrix2, Exercise2.unitary_matrix, np.divs, np.muls,
    np.array, ofInt, ofFloat, jj, Cdiv, Cmul.
  simpl. f_equal.
  rows_eq ltac:(apply C_eq; simpl; field; lra).
Qed.

Lemma unitary_matrix2_product :
  np.dot Exercise2.unitary_matrix2 (conjugate_transpose Exercise2.unitary_matrix2)
    = Some (np.eye 2).
Proof.
  rewrite unitary_matrix2_value.
  pose proof inv_sqrt2_sqr as Hh. revert Hh.
  generalize (/ np.sqrt 2). intros h Hh.
  unfold np.dot, conjugate_transpose, np.T, np.conj, np.array, np.eye, np.sum, get.
  simpl. do 2 f_equal.
  rows_eq ltac:(apply C_eq; simpl; lra).
Qed.

Lemma Rleb_true (x y : R) : x <= y -> Rleb x y = true.
Proof. intros H. unfold Rleb. destruct (Rle_dec x y); [reflexivity|contradiction]. Qed.

Lemma Rleb_false (x y : R) : y < x -> Rleb x y = false.
Proof. intros H. unfold Rleb. destruct (Rle_dec x y); [lra|reflexivity]. Qed.

Lemma isclose_refl (rtol atol : R) (a : C) :
  0 <= rtol -> 0 <= atol -> np.isclose rtol atol a a = true.
Proof.
  intros Hr Ha. unfold np.isclose. apply Rleb_true.
  replace (a - a)%C with C0 by ceq. rewrite Cabs_C0.
  pose proof (Cabs_nonneg a). nra.
Qed.

Lemma tol_default_nonneg : 0 <= np.rtol_default /\ 0 <= np.atol_default.
Proof. unfold np.rtol_default, np.atol_default. split; lra. Qed.

(** An array is close to itself. *)
Lemma allclose_refl (A : matrix) : np.allclose A A = Some true.
Proof.
  destruct tol_default_nonneg as [Hr Ha].
  unfold np.allclose.
  rewrite (allclose_tol_same_shape _ _ A A (nrows A) (ncols A)) by reflexivity.
  f_equal. apply forallb_forall. intros i _.
  apply forallb_forall. intros k _.
  apply isclose_refl; assumption.
Qed.

(** Two arrays of one shape whose entries differ by at most [atol] are
    close: the slack [np.allclose] leaves around an exact equality. *)
Lemma allclose_within_atol (A B : matrix) (n m : nat) :
  nrows A = n -> nrows B = n -> ncols A = m -> ncols B = m ->
  (forall i k, (i < n)%nat -> (k < m)%nat ->
     Cabs (get A i k - get B i k) <= np.atol_default) ->
  np.allclose A B = Some true.
Proof.
  intros HA HB HA' HB' Hclose.
  destruct tol_default_nonneg as [Hr Ha].
  unfold np.allclose.
  rewrite (allclose_tol_same_shape _ _ A B n m) by assumption.
  f_equal. apply forallb_forall. intros i Hi. apply in_seq in Hi.
  apply forallb_forall. intros k Hk. apply in_seq in Hk.
  unfold np.isclose. apply Rleb_true.
  specialize (Hclose i k ltac:(lia) ltac:(lia)).
  pose proof (Cabs_nonneg (get B i k)). nra.
Qed.

Lemma exercise2_is_unitary : Exercise2.is_unitary = Some true.
Proof.
  unfold Exercise2.is_unitary.
  change (np.T (np.conj Exercise2.unitary_matrix2))
    with (conjugate_transpose Exercise2.unitary_matrix2).
  rewrite unitary_matrix2_product. simpl. apply allclose_refl.
Qed.

(** C5. [U = (1/sqrt 2) [[1, i], [i, 1]]] is the array the Exercise 2 cell
    tests; the product of [U] with its conjugate transpose is the 2x2
    identity, and the unitarity test on [U] returns true.  The test has
    slack: it accepts every 2x2 array whose entries are within [atol] of
    those of the identity. *)
Theorem exercise2_U_is_unitary :
  Exercise2.unitary_matrix2 =
    np.array [[mkC (/ sqrt 2) 0; mkC 0 (/ sqrt 2)];
              [mkC 0 (/ sqrt 2); mkC (/ sqrt 2) 0]] /\
  np.dot Exercise2.unitary_matrix2 (conjugate_transpose Exercise2.unitary_matrix2)
    = Some (np.eye 2) /\
  is_unitary Exercise2.unitary_matrix2 = Some true /\
  Exercise2.is_unitary = Some true /\
  (forall P : matrix, nrows P = 2%nat -> ncols P = 2%nat ->
     (forall i k, (i < 2)%nat -> (k < 2)%nat ->
        Cabs (get P i k - get (np.eye 2) i k) <= np.atol_default) ->
     np.allclose P (np.eye 2) = Some true).
Proof.
  split; [exact unitary_matrix2_value|].
  split; [exact unitary_matrix2_product|].
  split; [|split; [exact exercise2_is_unitary|]].
  - unfold is_unitary. rewrite unitary_matrix2_product. simpl.
    apply allclose_refl.
  - intros P Hn Hm HP.
    apply (allclose_within_atol P (np.eye 2) 2 2); auto.
Qed.

Lemma unitary_matrix_product :
  np.dot Exercise2.unitary_matrix (conjugate_transpose Exercise2.unitary_matrix)
    = Some (np.array [[mkC 2 0; C0]; [C0; mkC 2 0]]).
Proof.
  unfold np.dot, conjugate_transpose, np.T, np.conj, Exercise2.unitary_matrix,
    np.array, np.sum, get, ofInt, jj, C0.
  simpl. do 2 f_equal. rows_eq ceq.
Qed.

Lemma two_not_close_to_one :
  np.isclose np.rtol_default np.atol_default (mkC 2 0) C1 = false.
Proof.
  unfold np.isclose, np.rtol_default, np.atol_default. apply Rleb_false.
  replace (mkC 2 0 - C1)%C with (mkC 1 0) by ceq.
  unfold C1. rewrite Cabs_real by lra. lra.
Qed.

(** C10. In the Exercise 2 cell the unitarity test runs on the scaled
    [unitary_matrix2] and yields true; the cell's value pairs that result
    with the unscaled [[1, i], [i, 1]], whose product with its own
    conjugate transpose is twice the identity, so the same test on it
    yields false. *)
Theorem exercise2_cell_pairs_unscaled_matrix :
  Exercise2.cell_value =
    (Some true, np.array [[mkC 1 0; mkC 0 1]; [mkC 0 1; mkC 1 0]]) /\
  Exercise2.unitary_matrix2 =
    np.divs (np.muls (snd Exercise2.cell_value) (ofInt 1)) (ofFloat (np.sqrt 2)) /\
  np.dot (snd Exercise2.cell_value) (conjugate_transpose (snd Exercise2.cell_value))
    = Some (np.smul (ofInt 2) (np.eye 2)) /\
  np.smul (ofInt 2) (np.eye 2) <> np.eye 2 /\
  is_unitary (snd Exercise2.cell_value) = Some false.
Proof.
  assert (E : np.smul (ofInt 2) (np.eye 2)
              = np.array [[mkC 2 0; C0]; [C0; mkC 2 0]]).
  { unfold np.smul, np.eye, np.array, ofInt, C0, C1. simpl. f_equal. rows_eq ceq. }
  split; [|split; [|split; [|split]]].
  - unfold Exercise2.cell_value. rewrite exercise2_is_unitary. reflexivity.
  - reflexivity.
  - rewrite E. exact unitary_matrix_product.
  - rewrite E. intros H.
    apply (f_equal (fun M => re (get M 0 0))) in H. simpl in H. lra.
  - unfold is_unitary. simpl snd. rewrite unitary_matrix_product.
    unfold bind, np.allclose.
    rewrite (allclose_tol_same_shape _ _ _ _ 2 2) by reflexivity.
    f_equal. cbn [seq forallb].
    replace (np.isclose _ _ (get _ 0 0) (get _ 0 0)) with false
      by (symmetry; exact two_not_close_to_one).
    reflexivity.
Qed.

(** ** The scalars have no zero divisors *)

Lemma Cmul_integral (a b : C) : (a * b)%C = C0 -> a = C0 \/ b = C0.
Proof.
  destruct a as [a1 a2], b as [b1 b2]. unfold Cmul, C0; simpl. intros H.
  injection H as Hre Him.
  assert (Hp : (a1 * a1 + a2 * a2) * (b1 * b1 + b2 * b2) = 0).
  { replace ((a1 * a1 + a2 * a2) * (b1 * b1 + b2 * b2))
      with ((a1 * b1 - a2 * b2) * (a1 * b1 - a2 * b2)
            + (a1 * b2 + a2 * b1) * (a1 * b2 + a2 * b1)) by ring.
    rewrite Hre, Him. ring. }
  apply Rmult_integral in Hp. destruct Hp as [Hp|Hp]; [left|right];
    apply C_eq; simpl; nra.
Qed.

(** ** Exercise 1 *)

Lemma sqrt6_sqr : sqrt 6 * sqrt 6 = 6.
Proof. apply sqrt_sqrt. lra. Qed.

Lemma sqrt6_bounds : 2449 / 1000 < sqrt 6 < 2450 / 1000.
Proof.
  pose proof sqrt6_sqr as H. pose proof (sqrt_pos 6) as Hp. split; nra.
Qed.

Lemma sqrt24 : sqrt 24 = 2 * sqrt 6.
Proof.
  replace 24 with (2 * 2 * 6) by lra.
  rewrite sqrt_mult by lra. rewrite sqrt_square by lra. reflexivity.
Qed.

Lemma exercise1_A_value :
  Exercise1.A = np.array [[mkC 3 0; mkC 2 1]; [mkC 2 (-1); mkC 1 0]].
Proof. unfold Exercise1.A, ofInt, jj. meq. Qed.

Lemma exercise1_A_is_hermitian_matrix : Exercise1.A = Exercise1.hermitian_matrix.
Proof. unfold Exercise1.A, Exercise1.hermitian_matrix, ofInt, jj. meq. Qed.

Lemma exercise1_self_adjoint :
  np.T (np.conj Exercise1.hermitian_matrix) = Exercise1.hermitian_matrix.
Proof.
  unfold np.T, np.conj, Exercise1.hermitian_matrix, np.array, get, ofInt, jj.
  simpl. f_equal. rows_eq ceq.
Qed.

Lemma exercise1_is_hermitian : Exercise1.is_hermitian = Some true.
Proof.
  unfold Exercise1.is_hermitian. rewrite exercise1_self_adjoint.
  apply allclose_refl.
Qed.

Lemma exercise1_closed_form :
  eigenvalues2_closed_form Exercise1.A
    = (mkC (2 + sqrt 6) 0, mkC (2 - sqrt 6) 0).
Proof.
  rewrite exercise1_A_value. unfold eigenvalues2_closed_form.
  assert (Hd : (trace2 (np.array [[mkC 3 0; mkC 2 1]; [mkC 2 (-1); mkC 1 0]])
                * trace2 (np.array [[mkC 3 0; mkC 2 1]; [mkC 2 (-1); mkC 1 0]])
                - ofInt 4 * det2 (np.array [[mkC 3 0; mkC 2 1]; [mkC 2 (-1); mkC 1 0]]))%C
               = mkC 24 0).
  { unfold trace2, det2, get, np.array, ofInt. ceq. }
  assert (Ht : trace2 (np.array [[mkC 3 0; mkC 2 1]; [mkC 2 (-1); mkC 1 0]])
               = mkC 4 0).
  { unfold trace2, get, np.array. ceq. }
  cbv zeta. rewrite Hd, Ht.
  assert (Hs : Csqrt (mkC 24 0) = mkC (sqrt 24) 0).
  { unfold Csqrt. rewrite Cabs_real by lra. simpl.
    replace ((24 + 24) / 2) with 24 by lra.
    replace ((24 - 24) / 2) with 0 by lra.
    rewrite sqrt_0. apply C_eq; simpl; [reflexivity|ring]. }
  rewrite Hs, sqrt24. unfold ofInt.
  f_equal; apply C_eq; simpl; field.
Qed.

(** The characteristic polynomial of the Exercise 1 matrix,
    [lam^2 - 4 lam - 2], vanishes at each of its eigenvalues. *)
Lemma exercise1_eigenvalue_root (lam : C) :
  is_eigenvalue Exercise1.A lam ->
  (lam * lam - ofInt 4 * lam - ofInt 2)%C = C0.
Proof.
  intros (v & Hlen & (x & Hin & Hx) & Hdot).
  rewrite exercise1_A_value in *. simpl in Hlen.
  destruct v as [|a [|b [|c v]]]; try discriminate.
  unfold np.dot_mv, np.sum, get, np.array in Hdot. simpl in Hdot.
  injection Hdot as H1 H2 H3 H4.
  assert (E1 : (C0 + mkC 3 0 * a + mkC 2 1 * b)%C = (lam * a)%C)
    by (apply C_eq; simpl; lra).
  assert (E2 : (C0 + mkC 2 (-1) * a + mkC 1 0 * b)%C = (lam * b)%C)
    by (apply C_eq; simpl; lra).
  clear H1 H2 H3 H4.
  set (p := (lam * lam - ofInt 4 * lam - ofInt 2)%C).
  assert (Ha : (p * a)%C = C0).
  { transitivity
      ((C1 - lam) * ((C0 + mkC 3 0 * a + mkC 2 1 * b) - lam * a)
       - mkC 2 1 * ((C0 + mkC 2 (-1) * a + mkC 1 0 * b) - lam * b))%C.
    - unfold p, ofInt, C0, C1. ceq.
    - rewrite E1, E2. unfold C0, C1. ceq. }
  assert (Hb : (p * b)%C = C0).
  { transitivity
      ((mkC 3 0 - lam) * ((C0 + mkC 2 (-1) * a + mkC 1 0 * b) - lam * b)
       - mkC 2 (-1) * ((C0 + mkC 3 0 * a + mkC 2 1 * b) - lam * a))%C.
    - unfold p, ofInt, C0. ceq.
    - rewrite E1, E2. unfold C0. ceq. }
  destruct (Cmul_integral _ _ Ha) as [Hp|Ha0]; [exact Hp|].
  destruct (Cmul_integral _ _ Hb) as [Hp|Hb0]; [exact Hp|].
  exfalso. destruct Hin as [<-|[<-|[]]]; contradiction.
Qed.

Lemma exercise1_roots (lam : C) :
  (lam * lam - ofInt 4 * lam - ofInt 2)%C = C0 ->
  lam = mkC (2 + sqrt 6) 0 \/ lam = mkC (2 - sqrt 6) 0.
Proof.
  destruct lam as [x y]. unfold Cmul, Csub, ofInt, C0; simpl. intros H.
  injection H as Hre Him.
  pose proof sqrt6_sqr as Hs.
  assert (Hy : y = 0).
  { assert (Hyx : y * (x - 2) = 0) by lra.
    apply Rmult_integral in Hyx. destruct Hyx as [Hy|Hx2]; [exact Hy|].
    assert (x = 2) by lra. subst x. nra. }
  subst y.
  assert (Hf : (x - 2 - sqrt 6) * (x - 2 + sqrt 6) = 0) by nra.
  apply Rmult_integral in Hf. destruct Hf as [Hf|Hf]; [left|right];
    apply C_eq; simpl; lra.
Qed.

Lemma exercise1_eigenpair_plus :
  eigenpair Exercise1.A (mkC (2 + sqrt 6) 0) [mkC 2 1; mkC (sqrt 6 - 1) 0].
Proof.
  pose proof sqrt6_sqr as Hs. rewrite exercise1_A_value.
  split; [reflexivity|]. split.
  - exists (mkC 2 1). split; [left; reflexivity|].
    intros H. apply (f_equal re) in H. simpl in H. lra.
  - unfold np.dot_mv, np.sum, get, np.array, C0. simpl. f_equal.
    list_eq ltac:(apply C_eq; simpl; nra).
Qed.

Lemma exercise1_eigenpair_minus :
  eigenpair Exercise1.A (mkC (2 - sqrt 6) 0) [mkC 2 1; mkC (- sqrt 6 - 1) 0].
Proof.
  pose proof sqrt6_sqr as Hs. rewrite exercise1_A_value.
  split; [reflexivity|]. split.
  - exists (mkC 2 1). split; [left; reflexivity|].
    intros H. apply (f_equal re) in H. simpl in H. lra.
  - unfold np.dot_mv, np.sum, get, np.array, C0. simpl. f_equal.
    list_eq ltac:(apply C_eq; simpl; nra).
Qed.

(** C4. [H = [[3, 2+1i], [2-1i, 1]]] passes the Hermitian test.  Its
    eigenvalues are exactly [2 + sqrt 6] and [2 - sqrt 6]: these are the
    two values of the closed form [(trace +- sqrt(trace^2 - 4 det)) / 2],
    and they are the only scalars with a nonzero eigenvector.  Both have
    imaginary part zero, and they lie in (4.449, 4.450) and
    (-0.450, -0.449). *)
Theorem exercise1_hermitian_eigenvalues :
  Exercise1.hermitian_matrix
    = np.array [[mkC 3 0; mkC 2 1]; [mkC 2 (-1); mkC 1 0]] /\
  Exercise1.is_hermitian = Some true /\
  is_hermitian Exercise1.hermitian_matrix = Some true /\
  Exercise1.A = Exercise1.hermitian_matrix /\
  eigenvalues2_closed_form Exercise1.A
    = (mkC (2 + sqrt 6) 0, mkC (2 - sqrt 6) 0) /\
  (forall lam : C,
     is_eigenvalue Exercise1.A lam <->
     lam = mkC (2 + sqrt 6) 0 \/ lam = mkC (2 - sqrt 6) 0) /\
  4449 / 1000 < 2 + sqrt 6 < 4450 / 1000 /\
  - (450 / 1000) < 2 - sqrt 6 < - (449 / 1000).
Proof.
  pose proof sqrt6_bounds as [Hlo Hhi].
  split; [rewrite <- exercise1_A_is_hermitian_matrix; exact exercise1_A_value|].
  split; [exact exercise1_is_hermitian|].
  split; [exact exercise1_is_hermitian|].
  split; [exact exercise1_A_is_hermitian_matrix|].
  split; [exact exercise1_closed_form|].
  split; [|split; split; lra].
  intros lam. split.
  - intros H. apply exercise1_roots, exercise1_eigenvalue_root, H.
  - intros [-> | ->].
    + eexists. exact exercise1_eigenpair_plus.
    + eexists. exact exercise1_eigenpair_minus.
Qed.

(** ** Exercise 5 *)

Lemma exp_j_phi (phi : R) :
  np.exp (jj 1 * ofFloat phi) = mkC (cos phi) (sin phi).
Proof.
  unfold np.exp, Cexp, jj, ofFloat, Cmul; simpl.
  replace (0 * phi - 1 * 0) with 0 by ring.
  replace (0 * 0 + 1 * phi) with phi by ring.
  rewrite exp_0. ceq.
Qed.

Lemma beam_splitter_value :
  Exercise5.beam_splitter =
    np.array [[mkC (/ np.sqrt 2) 0; mkC 0 (/ np.sqrt 2)];
              [mkC 0 (/ np.sqrt 2); mkC (/ np.sqrt 2) 0]].
Proof.
  unfold Exercise5.beam_splitter, np.smul, np.array, ofFloat, ofInt, jj.
  simpl. f_equal. rows_eq ltac:(apply C_eq; simpl; unfold Rdiv; ring).
Qed.

Lemma phase_shifter_value (phi : R) :
  Exercise5.phase_shifter phi =
    np.array [[mkC (cos phi) (sin phi); C0]; [C0; mkC (cos phi) (sin phi)]].
Proof.
  unfold Exercise5.phase_shifter. rewrite exp_j_phi. reflexivity.
Qed.

Lemma mach_zehnder_value (phi : R) :
  Exercise5.mach_zehnder_interferometer phi =
    Some (np.array [[C0; mz_entry phi]; [mz_entry phi; C0]]).
Proof.
  unfold Exercise5.mach_zehnder_interferometer. cbv zeta.
  rewrite beam_splitter_value, phase_shifter_value. unfold mz_entry.
  pose proof inv_sqrt2_sqr as Hh. revert Hh.
  generalize (/ np.sqrt 2) (cos phi) (sin phi). intros h c s Hh.
  assert (H1 : h * h * c = c / 2) by (rewrite Hh; lra).
  assert (H2 : h * h * s = s / 2) by (rewrite Hh; lra).
  assert (H3 : h * h * (c * c) = c * c / 2) by (rewrite Hh; lra).
  assert (H4 : h * h * (s * s) = s * s / 2) by (rewrite Hh; lra).
  assert (H5 : h * h * (c * s) = c * s / 2) by (rewrite Hh; lra).
  unfold np.dot, np.array, np.sum, get, bind, C0. simpl. do 2 f_equal.
  rows_eq ltac:(apply C_eq; simpl; lra).
Qed.

Lemma mz_entry_unit (phi : R) :
  re (mz_entry phi) * re (mz_entry phi) + im (mz_entry phi) * im (mz_entry phi) = 1.
Proof.
  unfold mz_entry; simpl.
  pose proof (sin2_cos2 phi) as H. unfold Rsqr in H.
  replace (- (2 * cos phi * sin phi) * - (2 * cos phi * sin phi)
           + (cos phi * cos phi - sin phi * sin phi)
             * (cos phi * cos phi - sin phi * sin phi))
    with ((sin phi * sin phi + cos phi * cos phi)
          * (sin phi * sin phi + cos phi * cos phi)) by ring.
  rewrite H. ring.
Qed.

Section Antidiagonal.
Variable w : C.
Hypothesis Hw : re w * re w + im w * im w = 1.

Let M : matrix := np.array [[C0; w]; [w; C0]].

Lemma antidiagonal_unitary :
  np.dot M (conjugate_transpose M) = Some (np.eye 2).
Proof.
  unfold M, np.dot, conjugate_transpose, np.T, np.conj, np.array, np.eye,
    np.sum, get, C0, C1.
  simpl. do 2 f_equal. rows_eq ltac:(apply C_eq; simpl; lra).
Qed.

Lemma antidiagonal_apply (a b : C) :
  np.dot_mv M [a; b] = Some [(w * b)%C; (w * a)%C].
Proof.
  unfold M, np.dot_mv, np.array, np.sum, get, C0. simpl. f_equal.
  list_eq ceq.
Qed.

Lemma antidiagonal_norm (a b : C) :
  norm [(w * b)%C; (w * a)%C] = norm [a; b].
Proof.
  unfold norm. simpl. f_equal.
  transitivity
    ((re w * re w + im w * im w)
     * (re a * re a + im a * im a + (re b * re b + im b * im b + 0))).
  - ring.
  - rewrite Hw. ring.
Qed.
End Antidiagonal.

Lemma mz_entry_quarter : mz_entry Exercise5.phi = mkC (-1) 0.
Proof.
  unfold mz_entry, Exercise5.phi, np.pi. rewrite cos_PI4, sin_PI4.
  pose proof inv_sqrt2_sqr as Hh. unfold np.sqrt in Hh.
  unfold Rdiv. rewrite !Rmult_1_l.
  apply C_eq; simpl; lra.
Qed.

(** C9. For every phase [phi] the interferometer matrix
    [PS . BS . PS . BS] exists, its product with its conjugate transpose
    is the 2x2 identity, the unitarity test on it returns true, and it
    maps every state [[a, b]] to a state of the same norm.  For
    [phi = pi/4] and the input [[1, 0]] the output state is [[0, -1]]. *)
Theorem mach_zehnder_unitary_and_output :
  (forall phi : R, exists MZ : matrix,
     Exercise5.mach_zehnder_interferometer phi = Some MZ /\
     np.dot MZ (conjugate_transpose MZ) = Some (np.eye 2) /\
     is_unitary MZ = Some true /\
     forall a b : C, exists out : vector,
       np.dot_mv MZ [a; b] = Some out /\ norm out = norm [a; b]) /\
  Exercise5.output_state = Some [mkC 0 0; mkC (-1) 0].
Proof.
  split.
  - intros phi. eexists. split; [apply mach_zehnder_value|].
    pose proof (mz_entry_unit phi) as Hw.
    split; [apply antidiagonal_unitary; exact Hw|].
    split.
    + unfold is_unitary. rewrite antidiagonal_unitary by exact Hw.
      simpl. apply allclose_refl.
    + intros a b. eexists. split; [apply antidiagonal_apply|].
      apply antidiagonal_norm. exact Hw.
  - unfold Exercise5.output_state. rewrite mach_zehnder_value. simpl.
    unfold Exercise5.input_state. rewrite antidiagonal_apply.
    rewrite mz_entry_quarter. unfold ofInt. f_equal. list_eq ceq.
Qed.

(** * Further properties of the numpy calls and of the cells *)

(** ** [np.kron] on arrays and on vectors *)

(** X1. The tensor product of a well-formed array [A] of shape (p, q) and
    a well-formed array [B] of shape (r, s) is a well-formed array of shape
    (p r, q s), and its entry at [i r + a, k s + b] is [A[i,k] * B[a,b]]. *)
Theorem kron_shape_and_entries (A B : matrix) :
  wf A -> wf B ->
  wf (np.kron A B) /\
  nrows (np.kron A B) = (nrows A * nrows B)%nat /\
  ncols (np.kron A B) = (ncols A * ncols B)%nat /\
  forall i k a b,
    (i < nrows A)%nat -> (k < ncols A)%nat ->
    (a < nrows B)%nat -> (b < ncols B)%nat ->
    get (np.kron A B) (i * nrows B + a) (k * ncols B + b)
      = (get A i k * get B a b)%C.
Proof.
  intros HA HB. split; [apply kron_wf; assumption|].
  split; [reflexivity|]. split; [reflexivity|].
  intros i k a b Hi Hk Ha Hb. apply kron_entry; assumption.
Qed.

Lemma kron_shape_and_entries_witness :
  wf Exercise6.M3 /\ wf Exercise6.M2 /\
  wf (np.kron Exercise6.M3 Exercise6.M2) /\
  nrows (np.kron Exercise6.M3 Exercise6.M2) = (2 * 2)%nat /\
  ncols (np.kron Exercise6.M3 Exercise6.M2) = (2 * 2)%nat /\
  forall i k a b,
    (i < 2)%nat -> (k < 2)%nat -> (a < 2)%nat -> (b < 2)%nat ->
    get (np.kron Exercise6.M3 Exercise6.M2) (i * 2 + a) (k * 2 + b)
      = (get Exercise6.M3 i k * get Exercise6.M2 a b)%C.
Proof.
  assert (H3 : wf Exercise6.M3)
    by (split; simpl; [reflexivity|repeat constructor]).
  assert (H2 : wf Exercise6.M2)
    by (split; simpl; [reflexivity|repeat constructor]).
  split; [exact H3|]. split; [exact H2|].
  apply (kron_shape_and_entries Exercise6.M3 Exercise6.M2 H3 H2).
Defined.

Lemma Cmul_assoc (a b c : C) : (a * (b * c))%C = (a * b * c)%C.
Proof. ceq. Qed.

Lemma kron_v_cons (a : C) (v w : vector) :
  np.kron_v (a :: v) w = map (fun b => (a * b)%C) w ++ np.kron_v v w.
Proof. reflexivity. Qed.

Lemma kron_v_app (u v w : vector) :
  np.kron_v (u ++ v) w = np.kron_v u w ++ np.kron_v v w.
Proof. unfold np.kron_v. apply flat_map_app. Qed.

Lemma kron_v_scale (a : C) (v w : vector) :
  np.kron_v (map (fun b => (a * b)%C) v) w
    = map (fun b => (a * b)%C) (np.kron_v v w).
Proof.
  induction v as [|x v IH]; [reflexivity|].
  simpl map. rewrite !kron_v_cons, map_app, IH. f_equal.
  rewrite map_map. apply map_ext. intros y. symmetry. apply Cmul_assoc.
Qed.

(** X2. The tensor product of vectors is associative. *)
Theorem kron_v_assoc (u v w : vector) :
  np.kron_v (np.kron_v u v) w = np.kron_v u (np.kron_v v w).
Proof.
  induction u as [|a u IH]; [reflexivity|].
  rewrite !kron_v_cons, kron_v_app, IH, kron_v_scale. reflexivity.
Qed.

Lemma sumsq_nonneg (v : vector) : 0 <= sumsq v.
Proof.
  induction v as [|x v IH]; simpl; [lra|].
  pose proof (Rle_0_sqr (re x)) as H1. pose proof (Rle_0_sqr (im x)) as H2.
  unfold Rsqr in *. lra.
Qed.

Lemma sumsq_app (u v : vector) : sumsq (u ++ v) = sumsq u + sumsq v.
Proof. induction u as [|x u IH]; simpl; [lra|rewrite IH; lra]. Qed.

Lemma sumsq_scale (a : C) (v : vector) :
  sumsq (map (fun b => (a * b)%C) v)
    = (re a * re a + im a * im a) * sumsq v.
Proof.
  induction v as [|x v IH]; simpl; [ring|]. rewrite IH. ring.
Qed.

Lemma sumsq_kron_v (v w : vector) :
  sumsq (np.kron_v v w) = sumsq v * sumsq w.
Proof.
  induction v as [|a v IH]; [simpl; ring|].
  rewrite kron_v_cons, sumsq_app, sumsq_scale, IH. simpl. ring.
Qed.

(** X3. The norm of a tensor product of vectors is the product of the
    norms: the tensor product of two normalised states is normalised. *)
Theorem norm_kron_v (v w : vector) :
  norm (np.kron_v v w) = norm v * norm w /\
  (norm v = 1 -> norm w = 1 -> norm (np.kron_v v w) = 1).
Proof.
  assert (E : norm (np.kron_v v w) = norm v * norm w).
  { change (sqrt (sumsq (np.kron_v v w)) = sqrt (sumsq v) * sqrt (sumsq w)).
    rewrite sumsq_kron_v. apply sqrt_mult; apply sumsq_nonneg. }
  split; [exact E|]. intros Hv Hw. rewrite E, Hv, Hw. ring.
Qed.

(** ** [M.conj().T] *)

Lemma conjugate_transpose_wf (M : matrix) : wf (conjugate_transpose M).
Proof.
  split; simpl.
  - rewrite length_map, length_seq. reflexivity.
  - apply Forall_forall. intros r Hr.
    apply in_map_iff in Hr. destruct Hr as (k & <- & _).
    rewrite length_map, length_seq. reflexivity.
Qed.

(** X4. The conjugate transpose of an array of shape (n, m) is a
    well-formed array of shape (m, n) whose entry [k, i] is the conjugate
    of [M[i, k]]. *)
Theorem conjugate_transpose_shape_and_entries (M : matrix) :
  wf (conjugate_transpose M) /\
  nrows (conjugate_transpose M) = ncols M /\
  ncols (conjugate_transpose M) = nrows M /\
  forall i k, (i < nrows M)%nat -> (k < ncols M)%nat ->
    get (conjugate_transpose M) k i = Cconj (get M i k).
Proof.
  split; [apply conjugate_transpose_wf|].
  split; [reflexivity|]. split; [reflexivity|].
  intros i k Hi Hk. apply get_conjugate_transpose; assumption.
Qed.

(** ** [np.dot] *)

Lemma fold_left_Cadd (l : list C) (a : C) :
  fold_left Cadd l a = (a + np.sum l)%C.
Proof.
  unfold np.sum. revert a. induction l as [|x l IH]; intros a; simpl.
  - ceq.
  - rewrite (IH (a + x)%C), (IH (C0 + x)%C). unfold C0. ceq.
Qed.

Lemma sum_cons (x : C) (l : list C) : np.sum (x :: l) = (x + np.sum l)%C.
Proof.
  unfold np.sum at 1. simpl. rewrite fold_left_Cadd. unfold C0. ceq.
Qed.

Lemma sum_nil : np.sum [] = C0.
Proof. reflexivity. Qed.

Lemma sum_zero {X : Type} (f : X -> C) (l : list X) :
  (forall x, In x l -> f x = C0) -> np.sum (map f l) = C0.
Proof.
  induction l as [|x l IH]; intros H; [reflexivity|].
  simpl map. rewrite sum_cons, (H x), IH.
  - unfold C0. ceq.
  - intros y Hy. apply H. right. exact Hy.
  - left. reflexivity.
Qed.

(** A sum with one term that can be nonzero. *)
Lemma sum_single (f : nat -> C) (l : list nat) (k : nat) :
  NoDup l -> In k l ->
  (forall x, In x l -> x <> k -> f x = C0) ->
  np.sum (map f l) = f k.
Proof.
  induction l as [|x l IH]; intros Hnd Hin Hz; [contradiction|].
  simpl map. rewrite sum_cons. inversion Hnd as [|? ? Hx Hnd']; subst.
  destruct Hin as [->|Hin].
  - rewrite sum_zero.
    + unfold C0. ceq.
    + intros y Hy. apply Hz; [right; exact Hy|].
      intros ->. contradiction.
  - rewrite (Hz x) by (try (left; reflexivity); intros ->; contradiction).
    rewrite IH; auto.
    + unfold C0. ceq.
    + intros y Hy. apply Hz. right. exact Hy.
Qed.

Lemma get_eye (n i k : nat) :
  (i < n)%nat -> (k < n)%nat ->
  get (np.eye n) i k = if Nat.eqb i k then C1 else C0.
Proof.
  intros Hi Hk.
  apply get_nth_error
    with (r := map (fun k => if Nat.eqb i k then C1 else C0) (seq 0 n)).
  - simpl. apply (nth_error_map_seq
      (fun i => map (fun k => if Nat.eqb i k then C1 else C0) (seq 0 n))).
    exact Hi.
  - apply (nth_error_map_seq (fun k => if Nat.eqb i k then C1 else C0)).
    exact Hk.
Qed.

(** X5. [np.eye] is a unit of [np.dot] on both sides, for well-formed
    arrays of any shape. *)
Theorem dot_eye (M : matrix) :
  wf M ->
  np.dot M (np.eye (ncols M)) = Some M /\
  np.dot (np.eye (nrows M)) M = Some M.
Proof.
  intros HM. pose proof (rows_tabulate M HM) as Hrows.
  destruct HM as [Hr Hc].
  assert (EM : forall rs, rs = rows M -> mkM (nrows M) (ncols M) rs = M)
    by (intros rs ->; destruct M; reflexivity).
  split; unfold np.dot; simpl; rewrite Nat.eqb_refl; f_equal; apply EM;
    rewrite <- Hrows;
    apply map_ext_in; intros i Hi; apply in_seq in Hi;
    apply map_ext_in; intros k Hk; apply in_seq in Hk.
  - rewrite (sum_single _ _ k).
    + rewrite get_eye by lia. rewrite Nat.eqb_refl. unfold C1. ceq.
    + apply seq_NoDup.
    + apply in_seq. lia.
    + intros l Hl Hne. apply in_seq in Hl. rewrite get_eye by lia.
      destruct (Nat.eqb_spec l k); [contradiction|]. unfold C0. ceq.
  - rewrite (sum_single _ _ i).
    + rewrite get_eye by lia. rewrite Nat.eqb_refl. unfold C1. ceq.
    + apply seq_NoDup.
    + apply in_seq. lia.
    + intros l Hl Hne. apply in_seq in Hl. rewrite get_eye by lia.
      destruct (Nat.eqb_spec i l); [subst; contradiction|]. unfold C0. ceq.
Qed.

Lemma dot_eye_witness :
  wf Exercise4.M2 /\
  np.dot Exercise4.M2 (np.eye (ncols Exercise4.M2)) = Some Exercise4.M2 /\
  np.dot (np.eye (nrows Exercise4.M2)) Exercise4.M2 = Some Exercise4.M2.
Proof.
  assert (H : wf Exercise4.M2)
    by (split; simpl; [reflexivity|repeat constructor]).
  split; [exact H|].
  apply (dot_eye Exercise4.M2 H).
Defined.

Lemma sum_add {X : Type} (f g : X -> C) (l : list X) :
  np.sum (map (fun x => (f x + g x)%C) l)
    = (np.sum (map f l) + np.sum (map g l))%C.
Proof.
  induction l as [|x l IH]; simpl map.
  - rewrite !sum_nil. unfold C0. ceq.
  - rewrite !sum_cons, IH. ceq.
Qed.

Lemma sum_mul_l {X : Type} (c : C) (f : X -> C) (l : list X) :
  (c * np.sum (map f l))%C = np.sum (map (fun x => (c * f x)%C) l).
Proof.
  induction l as [|x l IH]; simpl map.
  - rewrite !sum_nil. unfold C0. ceq.
  - rewrite !sum_cons, <- IH. ceq.
Qed.

Lemma sum_mul_r {X : Type} (c : C) (f : X -> C) (l : list X) :
  (np.sum (map f l) * c)%C = np.sum (map (fun x => (f x * c)%C) l).
Proof.
  induction l as [|x l IH]; simpl map.
  - rewrite !sum_nil. unfold C0. ceq.
  - rewrite !sum_cons, <- IH. ceq.
Qed.

Lemma sum_ext_in {X : Type} (f g : X -> C) (l : list X) :
  (forall x, In x l -> f x = g x) -> np.sum (map f l) = np.sum (map g l).
Proof. intros H. f_equal. apply map_ext_in. exact H. Qed.

Lemma sum_swap {X Y : Type} (F : X -> Y -> C) (K : list Y) (L : list X) :
  np.sum (map (fun k => np.sum (map (fun l => F l k) L)) K)
    = np.sum (map (fun l => np.sum (map (fun k => F l k) K)) L).
Proof.
  induction K as [|k K IH]; simpl map.
  - rewrite sum_nil. symmetry. apply sum_zero. intros; apply sum_nil.
  - rewrite sum_cons, IH, <- sum_add.
    apply sum_ext_in. intros l _. rewrite sum_cons. reflexivity.
Qed.

Lemma get_tabulated (n m : nat) (F : nat -> nat -> C) (i k : nat) :
  (i < n)%nat -> (k < m)%nat ->
  get (mkM n m (map (fun i => map (fun k => F i k) (seq 0 m)) (seq 0 n))) i k
    = F i k.
Proof.
  intros Hi Hk.
  apply get_nth_error with (r := map (fun k => F i k) (seq 0 m)).
  - simpl. apply (nth_error_map_seq (fun i => map (fun k => F i k) (seq 0 m))).
    exact Hi.
  - apply (nth_error_map_seq (fun k => F i k)). exact Hk.
Qed.

(** X6. Applying the product [np.dot(A, B)] to a vector is applying [B]
    and then [A]: for shapes that fit, all three calls return, and
    [np.dot(np.dot(A, B), v) = np.dot(A, np.dot(B, v))]. *)
Theorem dot_mv_dot (A B : matrix) (v : vector) :
  ncols A = nrows B -> length v = ncols B ->
  exists (P : matrix) (w u : vector),
    np.dot A B = Some P /\
    np.dot_mv B v = Some w /\
    np.dot_mv A w = Some u /\
    np.dot_mv P v = Some u.
Proof.
  intros HAB Hv.
  unfold np.dot, np.dot_mv. rewrite HAB, Hv, !Nat.eqb_refl.
  eexists. eexists. eexists. split; [reflexivity|]. split; [reflexivity|].
  cbn [ncols nrows].
  rewrite length_map, length_seq, Nat.eqb_refl.
  split; [reflexivity|]. rewrite <- Hv, Nat.eqb_refl. f_equal.
  apply map_ext_in. intros i Hi. apply in_seq in Hi.
  transitivity
    (np.sum (map (fun k =>
       np.sum (map (fun l => (get A i l * get B l k * nth k v C0)%C)
                   (seq 0 (nrows B)))) (seq 0 (length v)))).
  - apply sum_ext_in. intros k Hk. apply in_seq in Hk.
    rewrite get_tabulated by lia. apply sum_mul_r.
  - rewrite sum_swap. apply sum_ext_in. intros l Hl. apply in_seq in Hl.
    rewrite (nth_error_nth _ _ _
      (nth_error_map_seq
         (fun i0 => np.sum (map (fun l0 => (get B i0 l0 * nth l0 v C0)%C)
                                (seq 0 (length v))))
         (nrows B) l ltac:(lia))).
    rewrite sum_mul_l. apply sum_ext_in. intros k _. ceq.
Qed.

Lemma dot_mv_dot_witness :
  ncols Exercise6.U = nrows Exercise6.tensor_product_m /\
  length Exercise6.tensor_product_v = ncols Exercise6.tensor_product_m /\
  exists (P : matrix) (w u : vector),
    np.dot Exercise6.U Exercise6.tensor_product_m = Some P /\
    np.dot_mv Exercise6.tensor_product_m Exercise6.tensor_product_v = Some w /\
    np.dot_mv Exercise6.U w = Some u /\
    np.dot_mv P Exercise6.tensor_product_v = Some u.
Proof.
  split; [reflexivity|]. split; [reflexivity|].
  apply (dot_mv_dot Exercise6.U Exercise6.tensor_product_m
           Exercise6.tensor_product_v); reflexivity.
Defined.

(** ** [np.allclose] and the two tests built on it *)

Lemma allclose_tol_refl (rtol atol : R) (A : matrix) :
  0 <= rtol -> 0 <= atol -> np.allclose_tol rtol atol A A = Some true.
Proof.
  intros Hr Ha.
  rewrite (allclose_tol_same_shape _ _ A A (nrows A) (ncols A)) by reflexivity.
  f_equal. apply forallb_forall. intros i _.
  apply forallb_forall. intros k _.
  apply isclose_refl; assumption.
Qed.

(** X7. With tolerances that are not negative every array is close to
    itself; but [np.allclose] is not symmetric, the relative tolerance is
    taken of the second argument only: [0] is close to [1.00001e-8] and
    [1.00001e-8] is not close to [0]. *)
Theorem allclose_reflexive_not_symmetric :
  (forall (rtol atol : R) (A : matrix),
     0 <= rtol -> 0 <= atol -> np.allclose_tol rtol atol A A = Some true) /\
  np.allclose (np.array [[C0]]) (np.array [[mkC (100001 / 10000000000000) 0]])
    = Some true /\
  np.allclose (np.array [[mkC (100001 / 10000000000000) 0]]) (np.array [[C0]])
    = Some false.
Proof.
  split; [intros; apply allclose_tol_refl; assumption|].
  assert (Hb : Cabs (mkC (100001 / 10000000000000) 0) = 100001 / 10000000000000)
    by (apply Cabs_real; lra).
  split; unfold np.allclose;
    rewrite (allclose_tol_same_shape _ _ _ _ 1 1) by reflexivity;
    f_equal; cbn [seq forallb]; rewrite !andb_true_r;
    unfold np.isclose, get, np.array; cbn [rows nth].
  - apply Rleb_true.
    replace (Cabs (C0 - mkC (100001 / 10000000000000) 0))
      with (Cabs (mkC (100001 / 10000000000000) 0))
      by (unfold Cabs; simpl; f_equal; ring).
    rewrite Hb. unfold np.rtol_default, np.atol_default. lra.
  - apply Rleb_false.
    replace (mkC (100001 / 10000000000000) 0 - C0)%C
      with (mkC (100001 / 10000000000000) 0) by (unfold C0; ceq).
    rewrite Hb, Cabs_C0. unfold np.rtol_default, np.atol_default. lra.
Qed.

Lemma bdim_None (a b : nat) :
  np.bdim a b = None <-> a <> b /\ a <> 1%nat /\ b <> 1%nat.
Proof.
  unfold np.bdim.
  destruct (Nat.eqb_spec a b); [split; [discriminate|tauto]|].
  destruct (Nat.eqb_spec a 1); [split; [discriminate|tauto]|].
  destruct (Nat.eqb_spec b 1); [split; [discriminate|tauto]|].
  tauto.
Qed.

Lemma allclose_tol_None (rtol atol : R) (A B : matrix) :
  np.allclose_tol rtol atol A B = None <->
  np.bdim (nrows A) (nrows B) = None \/ np.bdim (ncols A) (ncols B) = None.
Proof.
  unfold np.allclose_tol.
  destruct (np.bdim (nrows A) (nrows B)); simpl;
    destruct (np.bdim (ncols A) (ncols B)); simpl;
    split; try tauto; try discriminate; intros [H|H]; discriminate.
Qed.

(** X8. The Hermitian test raises exactly on the arrays that are not
    square and have no axis of length 1; an array of shape (1, m) or (n, 1)
    is broadcast against its transpose and the test returns a result. *)
Theorem is_hermitian_raises (rtol atol : R) (M : matrix) :
  is_hermitian_tol rtol atol M = None <->
  nrows M <> ncols M /\ nrows M <> 1%nat /\ ncols M <> 1%nat.
Proof.
  unfold is_hermitian_tol. rewrite allclose_tol_None.
  change (nrows (conjugate_transpose M)) with (ncols M).
  change (ncols (conjugate_transpose M)) with (nrows M).
  rewrite !bdim_None. split; [|tauto].
  intros [H|H]; repeat split; destruct H as (H1 & H2 & H3); auto.
Qed.

Lemma Cabs_zero_inv (z : C) : Cabs z <= 0 -> z = C0.
Proof.
  intros H. pose proof (Cabs_nonneg z) as Hp.
  assert (H0 : Cabs z = 0) by lra. unfold Cabs in H0.
  apply sqrt_eq_0 in H0.
  - apply C_eq; simpl; nra.
  - nra.
Qed.

Lemma isclose_exact (a b : C) : np.isclose 0 0 a b = true <-> a = b.
Proof.
  unfold np.isclose, Rleb. split.
  - destruct (Rle_dec _ _) as [H|H]; [intros _|discriminate].
    replace (0 + 0 * Cabs b) with 0 in H by ring.
    apply Cabs_zero_inv in H.
    apply (f_equal re) in H as Hre. apply (f_equal im) in H as Him.
    simpl in Hre, Him. apply C_eq; lra.
  - intros ->. replace (b - b)%C with C0 by ceq. rewrite Cabs_C0.
    destruct (Rle_dec _ _) as [H|H]; [reflexivity|]. exfalso. apply H. lra.
Qed.

(** X9. On a square array whose entries satisfy [M[i,k] = conj(M[k,i])]
    the Hermitian test returns true for all tolerances that are not
    negative; with both tolerances zero it returns true on no other square
    array. *)
Theorem is_hermitian_exact (M : matrix) :
  nrows M = ncols M ->
  (forall rtol atol : R, 0 <= rtol -> 0 <= atol ->
     (forall i k, (i < nrows M)%nat -> (k < nrows M)%nat ->
        get M i k = Cconj (get M k i)) ->
     is_hermitian_tol rtol atol M = Some true) /\
  (is_hermitian_tol 0 0 M = Some true <->
   forall i k, (i < nrows M)%nat -> (k < nrows M)%nat ->
     get M i k = Cconj (get M k i)).
Proof.
  intros Hsq. split.
  - intros rtol atol Hr Ha H. rewrite is_hermitian_tol_square by exact Hsq.
    f_equal. apply forallb_forall. intros i Hi. apply in_seq in Hi.
    apply forallb_forall. intros k Hk. apply in_seq in Hk.
    rewrite <- (H i k) by lia. apply isclose_refl; assumption.
  - rewrite is_hermitian_tol_square by exact Hsq. split.
    + intros H i k Hi Hk. injection H as H.
      rewrite forallb_forall in H.
      specialize (H i ltac:(apply in_seq; lia)).
      rewrite forallb_forall in H.
      specialize (H k ltac:(apply in_seq; lia)).
      apply isclose_exact. exact H.
    + intros H. f_equal. apply forallb_forall. intros i Hi. apply in_seq in Hi.
      apply forallb_forall. intros k Hk. apply in_seq in Hk.
      apply isclose_exact. apply H; lia.
Qed.

Lemma is_hermitian_exact_witness :
  nrows Example1.hermitian_matrix = ncols Example1.hermitian_matrix /\
  (forall rtol atol : R, 0 <= rtol -> 0 <= atol ->
     (forall i k, (i < 2)%nat -> (k < 2)%nat ->
        get Example1.hermitian_matrix i k
          = Cconj (get Example1.hermitian_matrix k i)) ->
     is_hermitian_tol rtol atol Example1.hermitian_matrix = Some true) /\
  (is_hermitian_tol 0 0 Example1.hermitian_matrix = Some true <->
   forall i k, (i < 2)%nat -> (k < 2)%nat ->
     get Example1.hermitian_matrix i k
       = Cconj (get Example1.hermitian_matrix k i)).
Proof.
  split; [reflexivity|].
  apply (is_hermitian_exact Example1.hermitian_matrix). reflexivity.
Defined.

(** X10. The unitarity test compares [M M^dagger] with [np.eye(2)] and
    does not ask for a square [M]: it raises exactly when [M] has neither
    one nor two rows, and it accepts the 2x3 array whose rows are the
    first two unit vectors. *)
Theorem is_unitary_raises_and_non_square :
  (forall M : matrix,
     is_unitary M = None <-> nrows M <> 1%nat /\ nrows M <> 2%nat) /\
  is_unitary (np.array [[ofInt 1; ofInt 0; ofInt 0];
                        [ofInt 0; ofInt 1; ofInt 0]]) = Some true.
Proof.
  split.
  - intros M. unfold is_unitary, np.dot.
    change (nrows (conjugate_transpose M)) with (ncols M).
    rewrite Nat.eqb_refl. cbn [bind]. unfold np.allclose.
    rewrite allclose_tol_None. cbn [nrows ncols np.eye].
    change (ncols (conjugate_transpose M)) with (nrows M).
    rewrite !bdim_None. split; [|intros [H1 H2]; left; repeat split; auto].
    intros [(H1 & H2 & _)|(H1 & H2 & _)]; split; auto.
  - assert (E : np.dot (np.array [[ofInt 1; ofInt 0; ofInt 0];
                                  [ofInt 0; ofInt 1; ofInt 0]])
                  (conjugate_transpose
                     (np.array [[ofInt 1; ofInt 0; ofInt 0];
                                [ofInt 0; ofInt 1; ofInt 0]]))
                = Some (np.eye 2)).
    { unfold np.dot, conjugate_transpose, np.T, np.conj, np.array, np.eye,
        np.sum, get, ofInt, C0, C1.
      simpl. do 2 f_equal. rows_eq ceq. }
    unfold is_unitary. rewrite E. simpl. apply allclose_refl.
Qed.

(** ** Hermitian and unitary 2x2 arrays *)

Lemma dot_entry (A B P : matrix) (i k : nat) :
  np.dot A B = Some P -> (i < nrows A)%nat -> (k < ncols B)%nat ->
  get P i k
    = np.sum (map (fun l => (get A i l * get B l k)%C) (seq 0 (ncols A))).
Proof.
  unfold np.dot. intros H Hi Hk.
  destruct (Nat.eqb (ncols A) (nrows B)); [|discriminate].
  injection H as <-.
  apply (get_tabulated (nrows A) (ncols B)
           (fun i k => np.sum (map (fun l => (get A i l * get B l k)%C)
                                   (seq 0 (ncols A))))); assumption.
Qed.

(** X11. The eigenvalues of a Hermitian 2x2 array are real: if
    [A[i,k] = conj(A[k,i])] for all entries and a nonzero [v] has
    [A @ v = lam * v], the imaginary part of [lam] is zero. *)
Theorem hermitian2_eigenvalues_real (A : matrix) (lam : C) :
  nrows A = 2%nat -> ncols A = 2%nat ->
  (forall i k, (i < 2)%nat -> (k < 2)%nat -> get A i k = Cconj (get A k i)) ->
  is_eigenvalue A lam ->
  im lam = 0.
Proof.
  intros Hn Hm Hh (v & Hlen & (x & Hin & Hx) & Hdot).
  rewrite Hn in Hlen.
  destruct v as [|x1 [|x2 [|x3 v]]]; try discriminate.
  unfold np.dot_mv in Hdot. rewrite Hn, Hm in Hdot.
  cbn [length Nat.eqb seq map nth] in Hdot.
  rewrite !sum_cons, sum_nil in Hdot.
  pose proof (f_equal (fun o => nth 0 (match o with Some l => l | None => [] end) C0)
                Hdot) as E1.
  pose proof (f_equal (fun o => nth 1 (match o with Some l => l | None => [] end) C0)
                Hdot) as E2.
  cbn beta iota in E1, E2. cbn [nth] in E1, E2. clear Hdot.
  pose proof (Hh 0%nat 0%nat ltac:(lia) ltac:(lia)) as H00.
  pose proof (Hh 0%nat 1%nat ltac:(lia) ltac:(lia)) as H01.
  pose proof (Hh 1%nat 1%nat ltac:(lia) ltac:(lia)) as H11.
  revert E1 E2 H00 H01 H11.
  generalize (get A 0 0) (get A 0 1) (get A 1 0) (get A 1 1).
  intros a b c d E1 E2 H00 H01 H11.
  set (p := (lam * lam - (a + d) * lam + (a * d - b * c))%C).
  assert (H1 : (p * x1)%C = C0).
  { transitivity
      ((d - lam) * ((a * x1 + (b * x2 + C0)) - lam * x1)
       - b * ((c * x1 + (d * x2 + C0)) - lam * x2))%C.
    - unfold p, C0. ceq.
    - rewrite E1, E2. unfold C0. ceq. }
  assert (H2 : (p * x2)%C = C0).
  { transitivity
      ((a - lam) * ((c * x1 + (d * x2 + C0)) - lam * x2)
       - c * ((a * x1 + (b * x2 + C0)) - lam * x1))%C.
    - unfold p, C0. ceq.
    - rewrite E1, E2. unfold C0. ceq. }
  assert (Hp : p = C0).
  { destruct (Cmul_integral _ _ H1) as [Hp|Hx1]; [exact Hp|].
    destruct (Cmul_integral _ _ H2) as [Hp|Hx2]; [exact Hp|].
    exfalso. destruct Hin as [<-|[<-|[]]]; contradiction. }
  clear H1 H2 E1 E2 Hin Hx. subst p.
  destruct lam as [lx ly], a as [a1 a2], b as [b1 b2], c as [c1 c2],
    d as [d1 d2].
  unfold Cconj in H00, H01, H11. simpl in H00, H01, H11.
  injection H00 as Ha. injection H01 as Hb1 Hb2. injection H11 as Hd.
  assert (a2 = 0) by lra. assert (d2 = 0) by lra. subst a2 d2 b1 b2.
  unfold Cmul, Cadd, Csub, C0 in Hp. simpl in Hp.
  injection Hp as Hre Him. simpl.
  assert (Hy : ly * (2 * lx - (a1 + d1)) = 0) by lra.
  apply Rmult_integral in Hy. destruct Hy as [Hy|Hy]; [exact Hy|].
  assert (Hx : lx = (a1 + d1) / 2) by lra. subst lx.
  assert (Hs : ly * ly + (a1 - d1) * (a1 - d1) / 4 + (c1 * c1 + c2 * c2) = 0)
    by lra.
  pose proof (Rle_0_sqr ly) as S1. pose proof (Rle_0_sqr (a1 - d1)) as S2.
  pose proof (Rle_0_sqr c1) as S3. pose proof (Rle_0_sqr c2) as S4.
  unfold Rsqr in S1, S2, S3, S4.
  assert (Hl : ly * ly = 0) by lra.
  apply Rmult_integral in Hl. destruct Hl; assumption.
Qed.

Lemma hermitian2_eigenvalues_real_witness :
  nrows Exercise1.A = 2%nat /\ ncols Exercise1.A = 2%nat /\
  (forall i k, (i < 2)%nat -> (k < 2)%nat ->
     get Exercise1.A i k = Cconj (get Exercise1.A k i)) /\
  is_eigenvalue Exercise1.A (mkC (2 + sqrt 6) 0) /\
  im (mkC (2 + sqrt 6) 0) = 0.
Proof.
  assert (Hh : forall i k, (i < 2)%nat -> (k < 2)%nat ->
             get Exercise1.A i k = Cconj (get Exercise1.A k i)).
  { intros i k Hi Hk.
    destruct i as [|[|i]]; [| |lia]; destruct k as [|[|k]]; try lia;
      unfold Exercise1.A, get, np.array, ofInt, jj; simpl; ceq. }
  assert (He : is_eigenvalue Exercise1.A (mkC (2 + sqrt 6) 0))
    by (eexists; exact exercise1_eigenpair_plus).
  split; [reflexivity|]. split; [reflexivity|].
  split; [exact Hh|]. split; [exact He|].
  apply (hermitian2_eigenvalues_real Exercise1.A (mkC (2 + sqrt 6) 0)
           eq_refl eq_refl Hh He).
Defined.

Lemma Cabs_mul (a b : C) : Cabs (a * b) = Cabs a * Cabs b.
Proof.
  unfold Cabs. rewrite <- sqrt_mult.
  - f_equal. simpl. ring.
  - pose proof (Rle_0_sqr (re a)) as H1. pose proof (Rle_0_sqr (im a)) as H2.
    unfold Rsqr in *. lra.
  - pose proof (Rle_0_sqr (re b)) as H1. pose proof (Rle_0_sqr (im b)) as H2.
    unfold Rsqr in *. lra.
Qed.

(** X12. The determinant of a unitary 2x2 array has modulus 1: if the
    product of [M] with its conjugate transpose is [np.eye(2)], then
    [|M[0,0] M[1,1] - M[0,1] M[1,0]| = 1]. *)
Theorem unitary2_det_modulus (M : matrix) :
  nrows M = 2%nat -> ncols M = 2%nat ->
  np.dot M (conjugate_transpose M) = Some (np.eye 2) ->
  Cabs (det2 M) = 1.
Proof.
  intros Hn Hm HU.
  assert (HP : forall i k, (i < 2)%nat -> (k < 2)%nat ->
            get (np.eye 2) i k
              = (get M i 0 * Cconj (get M k 0)
                 + (get M i 1 * Cconj (get M k 1) + C0))%C).
  { intros i k Hi Hk.
    rewrite (dot_entry _ _ _ i k HU) by (simpl; lia).
    rewrite Hm. cbn [seq map]. rewrite !sum_cons, sum_nil.
    rewrite !get_conjugate_transpose by lia. reflexivity. }
  pose proof (HP 0%nat 0%nat ltac:(lia) ltac:(lia)) as P00.
  pose proof (HP 0%nat 1%nat ltac:(lia) ltac:(lia)) as P01.
  pose proof (HP 1%nat 1%nat ltac:(lia) ltac:(lia)) as P11.
  change (get (np.eye 2) 0 0) with C1 in P00.
  change (get (np.eye 2) 0 1) with C0 in P01.
  change (get (np.eye 2) 1 1) with C1 in P11.
  unfold det2. revert P00 P01 P11.
  generalize (get M 0 0) (get M 0 1) (get M 1 0) (get M 1 1).
  intros [a1 a2] [b1 b2] [c1 c2] [d1 d2] P00 P01 P11.
  apply (f_equal re) in P00 as R00. apply (f_equal re) in P11 as R11.
  apply (f_equal re) in P01 as R01. apply (f_equal im) in P01 as I01.
  simpl in R00, R11, R01, I01. clear P00 P01 P11.
  unfold Cabs. simpl.
  replace ((a1 * d1 - a2 * d2 - (b1 * c1 - b2 * c2))
           * (a1 * d1 - a2 * d2 - (b1 * c1 - b2 * c2))
           + (a1 * d2 + a2 * d1 - (b1 * c2 + b2 * c1))
             * (a1 * d2 + a2 * d1 - (b1 * c2 + b2 * c1)))
    with ((a1 * a1 + a2 * a2 + (b1 * b1 + b2 * b2))
          * (c1 * c1 + c2 * c2 + (d1 * d1 + d2 * d2))
          - ((a1 * c1 + a2 * c2 + (b1 * d1 + b2 * d2))
             * (a1 * c1 + a2 * c2 + (b1 * d1 + b2 * d2))
             + (a2 * c1 - a1 * c2 + (b2 * d1 - b1 * d2))
               * (a2 * c1 - a1 * c2 + (b2 * d1 - b1 * d2)))) by ring.
  replace (a1 * a1 + a2 * a2 + (b1 * b1 + b2 * b2)) with 1 by lra.
  replace (c1 * c1 + c2 * c2 + (d1 * d1 + d2 * d2)) with 1 by lra.
  replace (a1 * c1 + a2 * c2 + (b1 * d1 + b2 * d2)) with 0 by lra.
  replace (a2 * c1 - a1 * c2 + (b2 * d1 - b1 * d2)) with 0 by lra.
  replace (1 * 1 - (0 * 0 + 0 * 0)) with 1 by ring.
  apply sqrt_1.
Qed.

Lemma unitary2_det_modulus_witness :
  nrows Exercise2.unitary_matrix2 = 2%nat /\
  ncols Exercise2.unitary_matrix2 = 2%nat /\
  np.dot Exercise2.unitary_matrix2 (conjugate_transpose Exercise2.unitary_matrix2)
    = Some (np.eye 2) /\
  Cabs (det2 Exercise2.unitary_matrix2) = 1.
Proof.
  split; [reflexivity|]. split; [reflexivity|].
  split; [exact unitary_matrix2_product|].
  apply (unitary2_det_modulus Exercise2.unitary_matrix2 eq_refl eq_refl
           unitary_matrix2_product).
Defined.

(** Orthonormal rows of a 2x2 array force orthonormal columns, in the
    real and imaginary parts of the four entries. *)
Lemma unitary2_columns (a1 a2 b1 b2 c1 c2 d1 d2 : R) :
  a1*a1 + a2*a2 + (b1*b1 + b2*b2) = 1 ->
  c1*c1 + c2*c2 + (d1*d1 + d2*d2) = 1 ->
  a1*c1 + a2*c2 + (b1*d1 + b2*d2) = 0 ->
  a2*c1 - a1*c2 + (b2*d1 - b1*d2) = 0 ->
  a1*a1 + a2*a2 + (c1*c1 + c2*c2) = 1 /\
  b1*b1 + b2*b2 + (d1*d1 + d2*d2) = 1 /\
  a1*b1 + a2*b2 + (c1*d1 + c2*d2) = 0 /\
  a1*b2 - a2*b1 + (c1*d2 - c2*d1) = 0.
Proof.
  intros R00 R11 R01 I01.
  set (A := a1*a1 + a2*a2). set (B := b1*b1 + b2*b2).
  set (Cc := c1*c1 + c2*c2). set (D := d1*d1 + d2*d2).
  assert (HAC : A * Cc = B * D).
  { unfold A, B, Cc, D.
    replace ((a1*a1 + a2*a2) * (c1*c1 + c2*c2))
      with ((a1*c1 + a2*c2) * (a1*c1 + a2*c2) + (a2*c1 - a1*c2) * (a2*c1 - a1*c2)) by ring.
    replace ((b1*b1 + b2*b2) * (d1*d1 + d2*d2))
      with ((b1*d1 + b2*d2) * (b1*d1 + b2*d2) + (b2*d1 - b1*d2) * (b2*d1 - b1*d2)) by ring.
    replace (a1*c1 + a2*c2) with (- (b1*d1 + b2*d2)) by lra.
    replace (a2*c1 - a1*c2) with (- (b2*d1 - b1*d2)) by lra.
    ring. }
  assert (HAB : A + B = 1) by (unfold A, B; lra).
  assert (HCD : Cc + D = 1) by (unfold Cc, D; lra).
  assert (H1 : A + Cc = 1).
  { assert (B = 1 - A) by lra. assert (D = 1 - Cc) by lra.
    subst B. rewrite H, H0 in HAC. lra. }
  assert (H2 : B + D = 1) by lra.
  assert (HAD : A - D = 0) by lra. assert (HCB : Cc - B = 0) by lra.
  set (S1 := a1*c1 + a2*c2 + (b1*d1 + b2*d2)) in *.
  set (S2 := a2*c1 - a1*c2 + (b2*d1 - b1*d2)) in *.
  set (T1 := a1*b1 + a2*b2 + (c1*d1 + c2*d2)).
  set (T2 := a1*b2 - a2*b1 + (c1*d2 - c2*d1)).
  assert (E1 : (A + Cc) * T1 =
     (A - D) * (a1*b1 + a2*b2) + (Cc - B) * (c1*d1 + c2*d2)
     + S1 * (a1*d1 + a2*d2 + (c1*b1 + c2*b2)) + S2 * (a2*d1 - a1*d2 + (c1*b2 - c2*b1))).
  { unfold A, B, Cc, D, S1, S2, T1. ring. }
  assert (E2 : (A + Cc) * T2 =
     (A - D) * (a1*b2 - a2*b1) + (Cc - B) * (c1*d2 - c2*d1)
     + S1 * (a1*d2 - a2*d1 + (c1*b2 - c2*b1)) + S2 * (a1*d1 + a2*d2 - (c1*b1 + c2*b2))).
  { unfold A, B, Cc, D, S1, S2, T2. ring. }
  rewrite H1, HAD, HCB, R01, I01 in E1, E2.
  repeat split; try assumption; fold T1 T2; lra.
Qed.

(** X13. A unitary 2x2 array preserves the norm: if the product of [M]
    with its conjugate transpose is [np.eye(2)], then for every vector [v]
    of length 2 the call [np.dot(M, v)] returns a vector of the norm of
    [v]. *)
Theorem unitary2_preserves_norm (M : matrix) (v : vector) :
  nrows M = 2%nat -> ncols M = 2%nat -> length v = 2%nat ->
  np.dot M (conjugate_transpose M) = Some (np.eye 2) ->
  exists w : vector, np.dot_mv M v = Some w /\ norm w = norm v.
Proof.
  intros Hn Hm Hv HU.
  assert (HP : forall i k, (i < 2)%nat -> (k < 2)%nat ->
            get (np.eye 2) i k
              = (get M i 0 * Cconj (get M k 0)
                 + (get M i 1 * Cconj (get M k 1) + C0))%C).
  { intros i k Hi Hk.
    rewrite (dot_entry _ _ _ i k HU) by (simpl; lia).
    rewrite Hm. cbn [seq map]. rewrite !sum_cons, sum_nil.
    rewrite !get_conjugate_transpose by lia. reflexivity. }
  pose proof (HP 0%nat 0%nat ltac:(lia) ltac:(lia)) as P00.
  pose proof (HP 0%nat 1%nat ltac:(lia) ltac:(lia)) as P01.
  pose proof (HP 1%nat 1%nat ltac:(lia) ltac:(lia)) as P11.
  change (get (np.eye 2) 0 0) with C1 in P00.
  change (get (np.eye 2) 0 1) with C0 in P01.
  change (get (np.eye 2) 1 1) with C1 in P11.
  destruct v as [|x [|y [|z v]]]; try discriminate.
  unfold np.dot_mv. rewrite Hn, Hm.
  cbn [length Nat.eqb seq map nth]. rewrite !sum_cons, sum_nil.
  eexists. split; [reflexivity|].
  revert P00 P01 P11.
  generalize (get M 0 0) (get M 0 1) (get M 1 0) (get M 1 1).
  intros [a1 a2] [b1 b2] [c1 c2] [d1 d2] P00 P01 P11.
  apply (f_equal re) in P00 as R00. apply (f_equal re) in P11 as R11.
  apply (f_equal re) in P01 as R01. apply (f_equal im) in P01 as I01.
  simpl in R00, R11, R01, I01. clear P00 P01 P11.
  destruct (unitary2_columns a1 a2 b1 b2 c1 c2 d1 d2) as (K1 & K2 & K3 & K4);
    try lra.
  destruct x as [x1 x2], y as [y1 y2].
  unfold norm. f_equal. simpl.
  transitivity
    ((a1 * a1 + a2 * a2 + (c1 * c1 + c2 * c2)) * (x1 * x1 + x2 * x2)
     + (b1 * b1 + b2 * b2 + (d1 * d1 + d2 * d2)) * (y1 * y1 + y2 * y2)
     + 2 * ((a1 * b1 + a2 * b2 + (c1 * d1 + c2 * d2)) * (x1 * y1 + x2 * y2)
            - (a1 * b2 - a2 * b1 + (c1 * d2 - c2 * d1)) * (x1 * y2 - x2 * y1))).
  - ring.
  - rewrite K1, K2, K3, K4. ring.
Qed.

Lemma unitary2_preserves_norm_witness :
  nrows Exercise2.unitary_matrix2 = 2%nat /\
  ncols Exercise2.unitary_matrix2 = 2%nat /\
  length Exercise5.input_state = 2%nat /\
  np.dot Exercise2.unitary_matrix2 (conjugate_transpose Exercise2.unitary_matrix2)
    = Some (np.eye 2) /\
  exists w : vector,
    np.dot_mv Exercise2.unitary_matrix2 Exercise5.input_state = Some w /\
    norm w = norm Exercise5.input_state.
Proof.
  split; [reflexivity|]. split; [reflexivity|]. split; [reflexivity|].
  split; [exact unitary_matrix2_product|].
  apply (unitary2_preserves_norm Exercise2.unitary_matrix2
           Exercise5.input_state eq_refl eq_refl eq_refl
           unitary_matrix2_product).
Defined.

(** ** The optical elements of Exercise 5 *)

(** X14. Phase shifters compose by adding their phases, the phase 0 gives
    the identity, the conjugate transpose of a phase shifter is the phase
    shifter of the opposite phase, and every phase shifter is unitary. *)
Theorem phase_shifter_group (a b : R) :
  np.dot (Exercise5.phase_shifter a) (Exercise5.phase_shifter b)
    = Some (Exercise5.phase_shifter (a + b)) /\
  Exercise5.phase_shifter 0 = np.eye 2 /\
  conjugate_transpose (Exercise5.phase_shifter a) = Exercise5.phase_shifter (- a) /\
  np.dot (Exercise5.phase_shifter a)
         (conjugate_transpose (Exercise5.phase_shifter a)) = Some (np.eye 2).
Proof.
  assert (Hdot : forall x y,
            np.dot (Exercise5.phase_shifter x) (Exercise5.phase_shifter y)
              = Some (Exercise5.phase_shifter (x + y))).
  { intros x y. rewrite !phase_shifter_value, cos_plus, sin_plus.
    unfold np.dot, np.array, np.sum, get, C0. simpl. do 2 f_equal.
    rows_eq ceq. }
  assert (H0 : Exercise5.phase_shifter 0 = np.eye 2).
  { rewrite phase_shifter_value, cos_0, sin_0. reflexivity. }
  assert (Hct : conjugate_transpose (Exercise5.phase_shifter a)
                = Exercise5.phase_shifter (- a)).
  { rewrite !phase_shifter_value, cos_neg, sin_neg.
    unfold conjugate_transpose, np.T, np.conj, np.array, get, C0. simpl.
    f_equal. rows_eq ceq. }
  split; [apply Hdot|]. split; [exact H0|]. split; [exact Hct|].
  rewrite Hct, Hdot. replace (a + - a) with 0 by ring. rewrite H0. reflexivity.
Qed.

Lemma beam_splitter_product :
  np.dot Exercise5.beam_splitter (conjugate_transpose Exercise5.beam_splitter)
    = Some (np.eye 2).
Proof.
  rewrite beam_splitter_value.
  pose proof inv_sqrt2_sqr as Hh. revert Hh.
  generalize (/ np.sqrt 2). intros h Hh.
  unfold np.dot, conjugate_transpose, np.T, np.conj, np.array, np.eye, np.sum, get.
  simpl. do 2 f_equal.
  rows_eq ltac:(apply C_eq; simpl; lra).
Qed.

(** X15. The beam splitter is unitary, and two beam splitters in a row
    send each input port to the other one with the factor [i]:
    [BS . BS = [[0, i], [i, 0]]]. *)
Theorem beam_splitter_unitary_and_square :
  np.dot Exercise5.beam_splitter (conjugate_transpose Exercise5.beam_splitter)
    = Some (np.eye 2) /\
  is_unitary Exercise5.beam_splitter = Some true /\
  np.dot Exercise5.beam_splitter Exercise5.beam_splitter
    = Some (np.array [[C0; mkC 0 1]; [mkC 0 1; C0]]).
Proof.
  split; [exact beam_splitter_product|]. split.
  - unfold is_unitary. rewrite beam_splitter_product. simpl.
    apply allclose_refl.
  - rewrite beam_splitter_value.
    pose proof inv_sqrt2_sqr as Hh. revert Hh.
    generalize (/ np.sqrt 2). intros h Hh.
    unfold np.dot, np.array, np.sum, get, C0. simpl. do 2 f_equal.
    rows_eq ltac:(apply C_eq; simpl; lra).
Qed.

Lemma Cabs_mz_entry (phi : R) : Cabs (mz_entry phi) = 1.
Proof.
  unfold Cabs. rewrite mz_entry_unit. apply sqrt_1.
Qed.

(** X16. The phase shifter acts on both arms, so the phase never shows
    in the intensities: for every [phi] and every input state [[a, b]] the
    interferometer returns a state [[o1, o2]] with [|o1| = |b|] and
    [|o2| = |a|]. *)
Theorem mach_zehnder_swaps_intensities (phi : R) (a b : C) :
  exists o1 o2 : C,
    (MZ <- Exercise5.mach_zehnder_interferometer phi ;; np.dot_mv MZ [a; b])
      = Some [o1; o2] /\
    Cabs o1 = Cabs b /\ Cabs o2 = Cabs a.
Proof.
  rewrite mach_zehnder_value. cbn [bind]. rewrite antidiagonal_apply.
  eexists. eexists. split; [reflexivity|].
  rewrite !Cabs_mul, Cabs_mz_entry. split; ring.
Qed.

(** ** Exercise 6 *)

(** X17. The circuit of Exercise 6 runs without a shape error and ends in
    the state [[0, -1/sqrt 2, 1/sqrt 2, 0]], which has norm 1. *)
Theorem exercise6_final_state :
  Exercise6.final
    = Some [C0; mkC (- / sqrt 2) 0; mkC (/ sqrt 2) 0; C0] /\
  (forall out, Exercise6.final = Some out -> norm out = 1).
Proof.
  assert (E : Exercise6.final
              = Some [C0; mkC (- / sqrt 2) 0; mkC (/ sqrt 2) 0; C0]).
  { pose proof inv_sqrt2_sqr as Hh. unfold np.sqrt in Hh.
    unfold Exercise6.final, Exercise6.k, Exercise6.product_tensor,
      Exercise6.tensor_product_l, Exercise6.tensor_product_m,
      Exercise6.tensor_product_v, Exercise6.U,
      Exercise6.M7, Exercise6.M6, Exercise6.M5, Exercise6.M4,
      Exercise6.M3, Exercise6.M2, Exercise6.M1, Exercise6.v1, Exercise6.v2,
      np.sqrt, Rdiv.
    rewrite Rmult_1_l. revert Hh. generalize (/ sqrt 2). intros h Hh.
    assert (H3 : h * h * h = h / 2) by (rewrite Hh; lra).
    unfold np.dot_mv, np.kron, np.kron_v, np.smul, np.array, np.sum, get,
      bind, ofInt, ofFloat, C0.
    simpl. f_equal. list_eq ltac:(apply C_eq; simpl; lra). }
  split; [exact E|]. intros out Hout. rewrite E in Hout. injection Hout as <-.
  unfold norm, C0. simpl.
  pose proof inv_sqrt2_sqr as Hh. unfold np.sqrt in Hh.
  replace (0 * 0 + 0 * 0
           + (- / sqrt 2 * - / sqrt 2 + 0 * 0
              + (/ sqrt 2 * / sqrt 2 + 0 * 0 + (0 * 0 + 0 * 0 + 0))))
    with 1 by lra.
  apply sqrt_1.
Qed.

(** ** Tensor products and [np.dot] *)

Lemma seq_from (n r : nat) : seq n r = map (fun a => (n + a)%nat) (seq 0 r).
Proof.
  revert n. induction r as [|r IH]; intros n; [reflexivity|].
  simpl. f_equal; [lia|].
  rewrite <- (seq_shift r 0), map_map, (IH (S n)).
  apply map_ext. intros a. lia.
Qed.

(** The indices below [p * r], cut in [p] blocks of length [r]. *)
Lemma map_seq_blocks {X : Type} (F : nat -> X) (p r : nat) :
  map F (seq 0 (p * r))
    = flat_map (fun i => map (fun a => F (i * r + a)%nat) (seq 0 r)) (seq 0 p).
Proof.
  induction p as [|p IH]; [reflexivity|].
  replace (S p * r)%nat with (p * r + r)%nat by lia.
  rewrite seq_app, map_app, IH, seq_S, flat_map_app. f_equal.
  simpl. rewrite app_nil_r, (seq_from (p * r) r), map_map. reflexivity.
Qed.

Lemma sum_app (l1 l2 : list C) : np.sum (l1 ++ l2) = (np.sum l1 + np.sum l2)%C.
Proof.
  induction l1 as [|x l1 IH]; simpl app.
  - rewrite sum_nil. unfold C0. ceq.
  - rewrite !sum_cons, IH. ceq.
Qed.

Lemma sum_flat_map {X : Type} (g : X -> list C) (l : list X) :
  np.sum (flat_map g l) = np.sum (map (fun x => np.sum (g x)) l).
Proof.
  induction l as [|x l IH]; [reflexivity|].
  simpl. rewrite sum_app, sum_cons, IH. reflexivity.
Qed.

Lemma sum_seq_blocks (f : nat -> C) (q s : nat) :
  np.sum (map f (seq 0 (q * s)))
    = np.sum (map (fun k => np.sum (map (fun b => f (k * s + b)%nat) (seq 0 s)))
                  (seq 0 q)).
Proof. rewrite map_seq_blocks. apply sum_flat_map. Qed.

Lemma flat_map_of_map {X Y Z : Type} (f : Y -> list Z) (g : X -> Y) (l : list X) :
  flat_map f (map g l) = flat_map (fun x => f (g x)) l.
Proof.
  induction l as [|x l IH]; simpl; [reflexivity|]. rewrite IH. reflexivity.
Qed.

Lemma flat_map_ext_in {X Y : Type} (f g : X -> list Y) (l : list X) :
  (forall x, In x l -> f x = g x) -> flat_map f l = flat_map g l.
Proof.
  induction l as [|x l IH]; intros H; simpl; [reflexivity|].
  rewrite (H x) by (left; reflexivity).
  rewrite IH by (intros y Hy; apply H; right; exact Hy).
  reflexivity.
Qed.

Lemma kron_v_nth (v w : vector) (i k : nat) :
  (i < length v)%nat -> (k < length w)%nat ->
  nth (i * length w + k) (np.kron_v v w) C0 = (nth i v C0 * nth k w C0)%C.
Proof.
  intros Hi Hk. apply nth_error_nth. apply kron_v_nth_error.
  - apply nth_error_nth'. exact Hi.
  - apply nth_error_nth'. exact Hk.
Qed.

(** X18. The tensor product of two arrays applied to the tensor product
    of two vectors is the tensor product of the two results: for
    well-formed [A], [B] and vectors that fit,
    [np.dot(np.kron(A, B), np.kron(v, w))
       = np.kron(np.dot(A, v), np.dot(B, w))]. *)
Theorem dot_mv_kron (A B : matrix) (v w : vector) :
  wf A -> wf B -> length v = ncols A -> length w = ncols B ->
  exists x y : vector,
    np.dot_mv A v = Some x /\
    np.dot_mv B w = Some y /\
    np.dot_mv (np.kron A B) (np.kron_v v w) = Some (np.kron_v x y).
Proof.
  intros HA HB Hv Hw.
  unfold np.dot_mv at 1 2. rewrite Hv, Hw, !Nat.eqb_refl.
  eexists. eexists. split; [reflexivity|]. split; [reflexivity|].
  unfold np.dot_mv.
  rewrite kron_v_length. cbn [ncols nrows np.kron].
  rewrite Hv, Hw, Nat.eqb_refl. f_equal.
  rewrite map_seq_blocks. unfold np.kron_v at 2.
  rewrite flat_map_of_map.
  apply flat_map_ext_in. intros i Hi. apply in_seq in Hi.
  rewrite map_map. apply map_ext_in. intros a Ha. apply in_seq in Ha.
  rewrite sum_seq_blocks, sum_mul_r.
  apply sum_ext_in. intros k Hk. apply in_seq in Hk.
  rewrite sum_mul_l. apply sum_ext_in. intros b Hb. apply in_seq in Hb.
  rewrite kron_entry by (try assumption; lia).
  rewrite <- Hw, kron_v_nth by lia.
  ceq.
Qed.

Lemma dot_mv_kron_witness :
  wf Exercise6.M3 /\ wf Exercise6.M2 /\
  length Exercise6.v1 = ncols Exercise6.M3 /\
  length Exercise6.v2 = ncols Exercise6.M2 /\
  exists x y : vector,
    np.dot_mv Exercise6.M3 Exercise6.v1 = Some x /\
    np.dot_mv Exercise6.M2 Exercise6.v2 = Some y /\
    np.dot_mv (np.kron Exercise6.M3 Exercise6.M2)
              (np.kron_v Exercise6.v1 Exercise6.v2) = Some (np.kron_v x y).
Proof.
  assert (H3 : wf Exercise6.M3)
    by (split; simpl; [reflexivity|repeat constructor]).
  assert (H2 : wf Exercise6.M2)
    by (split; simpl; [reflexivity|repeat constructor]).
  split; [exact H3|]. split; [exact H2|].
  split; [reflexivity|]. split; [reflexivity|].
  apply (dot_mv_kron Exercise6.M3 Exercise6.M2 Exercise6.v1 Exercise6.v2
           H3 H2 eq_refl eq_refl).
Defined.

(** ** Products of arrays *)

Lemma dot_Some (A B : matrix) :
  ncols A = nrows B ->
  np.dot A B =
    Some (mkM (nrows A) (ncols B)
            (map (fun i =>
               map (fun k =>
                 np.sum (map (fun l => (get A i l * get B l k)%C)
                             (seq 0 (ncols A))))
                 (seq 0 (ncols B)))
               (seq 0 (nrows A)))).
Proof. intros H. unfold np.dot. rewrite H, Nat.eqb_refl. reflexivity. Qed.

Lemma dot_shape (A B P : matrix) :
  np.dot A B = Some P ->
  ncols A = nrows B /\ nrows P = nrows A /\ ncols P = ncols B.
Proof.
  unfold np.dot. destruct (Nat.eqb_spec (ncols A) (nrows B)); [|discriminate].
  intros H. injection H as <-. auto.
Qed.

Lemma dot_assoc (A B D AB BD : matrix) :
  np.dot A B = Some AB -> np.dot B D = Some BD ->
  np.dot AB D = np.dot A BD.
Proof.
  intros HAB HBD.
  destruct (dot_shape _ _ _ HAB) as (S1 & S2 & S3).
  destruct (dot_shape _ _ _ HBD) as (S4 & S5 & S6).
  rewrite (dot_Some AB D) by congruence.
  rewrite (dot_Some A BD) by congruence.
  rewrite S2, S3, S6. do 2 f_equal.
  apply map_ext_in. intros i Hi. apply in_seq in Hi.
  apply map_ext_in. intros k Hk. apply in_seq in Hk.
  transitivity
    (np.sum (map (fun l =>
       np.sum (map (fun m => (get A i m * get B m l * get D l k)%C)
                   (seq 0 (ncols A)))) (seq 0 (ncols B)))).
  - apply sum_ext_in. intros l Hl. apply in_seq in Hl.
    rewrite (dot_entry _ _ _ i l HAB) by lia. apply sum_mul_r.
  - rewrite sum_swap. apply sum_ext_in. intros m Hm. apply in_seq in Hm.
    rewrite (dot_entry _ _ _ m k HBD) by lia.
    rewrite sum_mul_l. apply sum_ext_in. intros l _. ceq.
Qed.

(** X19. [np.dot] is associative: for three arrays whose shapes fit, both
    groupings return, and they return the same array. *)
Theorem dot_associative (A B D : matrix) :
  ncols A = nrows B -> ncols B = nrows D ->
  exists AB BD P : matrix,
    np.dot A B = Some AB /\ np.dot B D = Some BD /\
    np.dot AB D = Some P /\ np.dot A BD = Some P.
Proof.
  intros H1 H2.
  pose proof (dot_Some A B H1) as HAB. pose proof (dot_Some B D H2) as HBD.
  eexists. eexists. eexists.
  split; [exact HAB|]. split; [exact HBD|].
  rewrite <- (dot_assoc A B D _ _ HAB HBD).
  split; apply dot_Some; exact H2.
Qed.

Lemma dot_associative_witness :
  ncols Exercise5.beam_splitter = nrows (Exercise5.phase_shifter Exercise5.phi) /\
  ncols (Exercise5.phase_shifter Exercise5.phi) = nrows Exercise5.beam_splitter /\
  exists AB BD P : matrix,
    np.dot Exercise5.beam_splitter (Exercise5.phase_shifter Exercise5.phi)
      = Some AB /\
    np.dot (Exercise5.phase_shifter Exercise5.phi) Exercise5.beam_splitter
      = Some BD /\
    np.dot AB Exercise5.beam_splitter = Some P /\
    np.dot Exercise5.beam_splitter BD = Some P.
Proof.
  split; [reflexivity|]. split; [reflexivity|].
  apply (dot_associative Exercise5.beam_splitter
           (Exercise5.phase_shifter Exercise5.phi) Exercise5.beam_splitter);
    reflexivity.
Defined.

Lemma Cconj_sum {X : Type} (f : X -> C) (l : list X) :
  Cconj (np.sum (map f l)) = np.sum (map (fun x => Cconj (f x)) l).
Proof.
  induction l as [|x l IH]; simpl map.
  - rewrite !sum_nil. apply Cconj_C0.
  - rewrite !sum_cons, <- IH. ceq.
Qed.

Lemma conjugate_transpose_dot (A B P : matrix) :
  np.dot A B = Some P ->
  np.dot (conjugate_transpose B) (conjugate_transpose A)
    = Some (conjugate_transpose P).
Proof.
  intros HP. destruct (dot_shape _ _ _ HP) as (S1 & S2 & S3).
  rewrite dot_Some by (simpl; congruence).
  cbn [nrows ncols conjugate_transpose np.T np.conj].
  unfold conjugate_transpose at 3. unfold np.T at 1.
  cbn [nrows ncols np.conj].
  rewrite S2, S3. do 2 f_equal.
  apply map_ext_in. intros k Hk. apply in_seq in Hk.
  apply map_ext_in. intros i Hi. apply in_seq in Hi.
  rewrite get_conj, (dot_entry _ _ _ i k HP) by lia.
  rewrite Cconj_sum, <- S1. apply sum_ext_in. intros l Hl. apply in_seq in Hl.
  fold (conjugate_transpose B). fold (conjugate_transpose A).
  rewrite !get_conjugate_transpose by lia. ceq.
Qed.

(** X20. The conjugate transpose of a product is the product of the
    conjugate transposes in the other order. *)
Theorem conjugate_transpose_of_product (A B : matrix) :
  ncols A = nrows B ->
  exists P : matrix,
    np.dot A B = Some P /\
    np.dot (conjugate_transpose B) (conjugate_transpose A)
      = Some (conjugate_transpose P).
Proof.
  intros H. eexists. split; [apply dot_Some; exact H|].
  apply conjugate_transpose_dot. apply dot_Some. exact H.
Qed.

Lemma conjugate_transpose_of_product_witness :
  ncols Exercise5.beam_splitter = nrows Exercise2.unitary_matrix /\
  exists P : matrix,
    np.dot Exercise5.beam_splitter Exercise2.unitary_matrix = Some P /\
    np.dot (conjugate_transpose Exercise2.unitary_matrix)
           (conjugate_transpose Exercise5.beam_splitter)
      = Some (conjugate_transpose P).
Proof.
  split; [reflexivity|].
  apply (conjugate_transpose_of_product Exercise5.beam_splitter
           Exercise2.unitary_matrix).
  reflexivity.
Defined.

Lemma dot_identity_right (M : matrix) (n : nat) :
  wf M -> ncols M = n -> np.dot M (np.eye n) = Some M.
Proof.
  intros HM <-. pose proof (rows_tabulate M HM) as Hrows.
  assert (EM : forall rs, rs = rows M -> mkM (nrows M) (ncols M) rs = M)
    by (intros rs ->; destruct M; reflexivity).
  rewrite dot_Some by reflexivity. cbn [ncols np.eye].
  f_equal. apply EM. rewrite <- Hrows.
  apply map_ext_in. intros i Hi. apply in_seq in Hi.
  apply map_ext_in. intros k Hk. apply in_seq in Hk.
  rewrite (sum_single _ _ k).
  - rewrite get_eye by lia. rewrite Nat.eqb_refl. unfold C1. ceq.
  - apply seq_NoDup.
  - apply in_seq. lia.
  - intros l Hl Hne. apply in_seq in Hl. rewrite get_eye by lia.
    destruct (Nat.eqb_spec l k); [contradiction|]. unfold C0. ceq.
Qed.

(** X21. Unitary arrays compose: if [A] and [B] are n x n arrays with
    [A A^dagger = B B^dagger = np.eye(n)], their product [np.dot(A, B)]
    has the same property. *)
Theorem unitary_product (n : nat) (A B : matrix) :
  wf A ->
  nrows A = n -> ncols A = n -> nrows B = n -> ncols B = n ->
  np.dot A (conjugate_transpose A) = Some (np.eye n) ->
  np.dot B (conjugate_transpose B) = Some (np.eye n) ->
  exists P : matrix,
    np.dot A B = Some P /\
    np.dot P (conjugate_transpose P) = Some (np.eye n).
Proof.
  intros HA Hn Hm Hn' Hm' HUA HUB.
  pose proof (dot_Some A B ltac:(congruence)) as HP.
  eexists. split; [exact HP|].
  pose proof (conjugate_transpose_dot _ _ _ HP) as HPt.
  pose proof (dot_assoc _ _ _ _ _ HP HUB) as H1.
  rewrite (dot_identity_right A n HA Hm) in H1.
  rewrite <- (dot_assoc _ _ _ _ _ H1 HPt). exact HUA.
Qed.

Lemma unitary_product_witness :
  wf Exercise5.beam_splitter /\
  nrows Exercise5.beam_splitter = 2%nat /\
  ncols Exercise5.beam_splitter = 2%nat /\
  nrows Exercise2.unitary_matrix2 = 2%nat /\
  ncols Exercise2.unitary_matrix2 = 2%nat /\
  np.dot Exercise5.beam_splitter (conjugate_transpose Exercise5.beam_splitter)
    = Some (np.eye 2) /\
  np.dot Exercise2.unitary_matrix2 (conjugate_transpose Exercise2.unitary_matrix2)
    = Some (np.eye 2) /\
  exists P : matrix,
    np.dot Exercise5.beam_splitter Exercise2.unitary_matrix2 = Some P /\
    np.dot P (conjugate_transpose P) = Some (np.eye 2).
Proof.
  assert (Hwf : wf Exercise5.beam_splitter)
    by (split; simpl; [reflexivity|repeat constructor]).
  split; [exact Hwf|].
  split; [reflexivity|]. split; [reflexivity|].
  split; [reflexivity|]. split; [reflexivity|].
  split; [exact beam_splitter_product|].
  split; [exact unitary_matrix2_product|].
  apply (unitary_product 2 Exercise5.beam_splitter Exercise2.unitary_matrix2
           Hwf eq_refl eq_refl eq_refl eq_refl
           beam_splitter_product unitary_matrix2_product).
Defined.
